(** * RadAI kidney stone detection: a shallow embedding of [app.py]

    The three functions of [app.py] are embedded over a small model of the
    Python values that [response.json()] can produce:

    - [interpret_results]    (app.py, lines 29-45)
    - [draw_bounding_boxes]  (app.py, lines 48-71)
    - [call_ultralytics_api] (app.py, lines 15-26)

    Python exceptions are modelled with a sum type: [inl e] is "raises e",
    [inr v] is "returns v".  Text is [String.string], one [ascii] per code
    point, so the model covers labels whose code points are below 256; on
    that range [lower] and [strip] follow [str.lower] and [str.strip]
    exactly. *)

From Stdlib Require Import ZArith List Bool String Ascii Lia.
From Stdlib Require Import Strings.Byte.
From Stdlib Require Import Floats.SpecFloat.
From Stdlib Require Import Sorting.Permutation.
Import ListNotations.

#[local] Set Warnings "-register-all".

Local Open Scope string_scope.
Local Open Scope Z_scope.

(** ** Python values and exceptions *)

Module Py.

(** The values of the [json] module: [None], [bool], [int], [float], [str],
    [list] and [dict] with [str] keys.  A [dict] is an association list in
    insertion order whose keys are pairwise distinct; lookup takes the first
    binding of a key. *)
Inductive value : Type :=
| PNone
| PBool (b : bool)
| PInt (z : Z)
| PFloat (f : spec_float)
| PStr (s : string)
| PList (l : list value)
| PDict (kvs : list (string * value)).

(** What [requests] raises: all subclasses of [RequestException]. *)
Inductive request_failure : Type :=
| ConnectionError
| Timeout
| HTTPError (status : Z)
| JSONDecodeError.

(** The exceptions the three functions can raise. *)
Inductive exn : Type :=
| AttributeError
| TypeError
| KeyError
| IndexError
| ValueError
| RuntimeError (msg : string)
| RequestException (f : request_failure)
| UnidentifiedImageError.

Definition result (A : Type) : Type := (exn + A)%type.

Definition ret {A} (a : A) : result A := inr a.
Definition raise {A} (e : exn) : result A := inl e.
Definition bind {A B} (m : result A) (k : A -> result B) : result B :=
  match m with
  | inl e => inl e
  | inr a => k a
  end.

(** [bool(v)]: the truth value Python gives [v] in [if], [not] and [or]. *)
Definition truthy (v : value) : bool :=
  match v with
  | PNone => false
  | PBool b => b
  | PInt z => negb (z =? 0)
  | PFloat (S754_zero _) => false
  | PFloat _ => true
  | PStr s => negb (s =? "")%string
  | PList l => match l with [] => false | _ :: _ => true end
  | PDict kvs => match kvs with [] => false | _ :: _ => true end
  end.

(** [a or b]. *)
Definition py_or (a b : value) : value := if truthy a then a else b.

Fixpoint lookup (k : string) (kvs : list (string * value)) : option value :=
  match kvs with
  | [] => None
  | (k', v) :: rest => if (k' =? k)%string then Some v else lookup k rest
  end.

(** [obj.get(key, default)]; only [dict] has a [get] attribute. *)
Definition get_default (obj : value) (key : string) (default : value)
  : result value :=
  match obj with
  | PDict kvs =>
      ret (match lookup key kvs with Some v => v | None => default end)
  | _ => raise AttributeError
  end.

(** [obj.get(key)], whose default is [None]. *)
Definition get (obj : value) (key : string) : result value :=
  get_default obj key PNone.

(** [obj[0]].  A [dict] from JSON has [str] keys only, so the key [0] is
    never found. *)
Definition index0 (obj : value) : result value :=
  match obj with
  | PList (x :: _) => ret x
  | PList [] => raise IndexError
  | PStr (String c _) => ret (PStr (String c EmptyString))
  | PStr EmptyString => raise IndexError
  | PDict _ => raise KeyError
  | PNone | PBool _ | PInt _ | PFloat _ => raise TypeError
  end.

Fixpoint chars (s : string) : list value :=
  match s with
  | EmptyString => []
  | String c rest => PStr (String c EmptyString) :: chars rest
  end.

(** [iter(obj)], fully unfolded: the items a [for] loop or a generator
    expression visits. *)
Definition iterate (obj : value) : result (list value) :=
  match obj with
  | PList l => ret l
  | PStr s => ret (chars s)
  | PDict kvs => ret (map (fun kv => PStr (fst kv)) kvs)
  | PNone | PBool _ | PInt _ | PFloat _ => raise TypeError
  end.

(** [x is None], which is what [None in (...)] tests on each item. *)
Definition is_none (v : value) : bool :=
  match v with PNone => true | _ => false end.

(** *** [str.lower] and [str.strip] on code points below 256 *)

(** Upper-case letters: A-Z, and the Latin-1 letters U+00C0-U+00DE apart from
    the multiplication sign U+00D7.  Each lower-case form is 32 above. *)
Definition is_upper (c : ascii) : bool :=
  let n := nat_of_ascii c in
  ((65 <=? n) && (n <=? 90) ||
   (192 <=? n) && (n <=? 222) && negb (n =? 215))%nat.

Definition lower_char (c : ascii) : ascii :=
  if is_upper c then ascii_of_nat (nat_of_ascii c + 32) else c.

Fixpoint lower (s : string) : string :=
  match s with
  | EmptyString => EmptyString
  | String c rest => String (lower_char c) (lower rest)
  end.

(** [str.isspace] on one character: U+0009-U+000D, U+001C-U+0020, U+0085 and
    U+00A0. *)
Definition is_space (c : ascii) : bool :=
  let n := nat_of_ascii c in
  ((9 <=? n) && (n <=? 13) || (28 <=? n) && (n <=? 32) ||
   (n =? 133) || (n =? 160))%nat.

Fixpoint lstrip (s : string) : string :=
  match s with
  | EmptyString => EmptyString
  | String c rest => if is_space c then lstrip rest else s
  end.

Fixpoint rstrip (s : string) : string :=
  match s with
  | EmptyString => EmptyString
  | String c rest =>
      match rstrip rest with
      | EmptyString => if is_space c then EmptyString else String c EmptyString
      | r => String c r
      end
  end.

Definition strip (s : string) : string := rstrip (lstrip s).

(** [v.lower()] and [v.strip()] as attribute calls: of the JSON values only
    [str] has them. *)
Definition call_lower (v : value) : result string :=
  match v with
  | PStr s => ret (lower s)
  | _ => raise AttributeError
  end.

Definition call_strip (v : value) : result string :=
  match v with
  | PStr s => ret (strip s)
  | _ => raise AttributeError
  end.

End Py.

Import Py.

Declare Scope py_scope.
Delimit Scope py_scope with py.
Notation "x <- m ;; k" := (bind m (fun x => k))
  (at level 61, m at next level, right associativity) : py_scope.
Local Open Scope py_scope.

(** ** The result interpreter (app.py, lines 29-45) *)

(** [normal_labels = {"normal kidney", "normal_kidney", "normal"}] with its
    membership test [s in normal_labels]. *)
Definition normal_labels : list string :=
  ["normal kidney"; "normal_kidney"; "normal"].

Definition in_normal_labels (s : string) : bool :=
  existsb (String.eqb s) normal_labels.

(** One item of the generator at line 40:
    [(det.get("name") or "").lower() not in normal_labels]. *)
Definition non_normal (det : value) : result bool :=
  name <- get det "name" ;;
  label <- call_lower (py_or name (PStr "")) ;;
  ret (negb (in_normal_labels label)).

(** [any(f(det) for det in dets)]: items are evaluated in order and the
    first true one ends the iteration, so later items are not evaluated. *)
Fixpoint py_any (f : value -> result bool) (dets : list value) : result bool :=
  match dets with
  | [] => ret false
  | det :: rest =>
      b <- f det ;;
      if b then ret true else py_any f rest
  end.

Definition verdict : Type := (string * value * bool)%type.

Definition interpret_results (result_json : value) : result verdict :=
  images <- get_default result_json "images" (PList []) ;;
  if negb (truthy images) then
    ret ("No prediction available", PList [], false)
  else
    group <- index0 images ;;
    results <- get_default group "results" (PList []) ;;
    if negb (truthy results) then
      ret ("Normal Kidney (no stones detected)", results, false)
    else
      items <- iterate results ;;
      has_non_normal <- py_any non_normal items ;;
      if has_non_normal then
        ret ("Kidney Stone Detected", results, true)
      else
        ret ("Normal Kidney (no stones detected)", results, false).

(** ** The box renderer (app.py, lines 48-71) *)

(** One call [draw.rectangle(xy, fill=None, outline=None, width=1)]. *)
Record rectangle_call : Type := {
  xy : list value;
  fill : option string;
  outline : option string;
  width : Z
}.

(** The part of Pillow the renderer uses.  [open_rgb b] is
    [Image.open(BytesIO(b)).convert("RGB")]; [rectangle] is
    [ImageDraw.Draw(image).rectangle], which paints on the image it was
    created for.  Both may raise. *)
Class Imaging : Type := {
  image : Type;
  open_rgb : list byte -> result image;
  rectangle : image -> rectangle_call -> result image
}.

(** An image that remembers the bytes it was decoded from and the rectangles
    painted on it, in order. *)
Record log_image : Type := {
  source : list byte;
  drawn : list rectangle_call
}.

Definition LogImaging : Imaging := {|
  image := log_image;
  open_rgb := fun b => ret {| source := b; drawn := [] |};
  rectangle := fun img c =>
    ret {| source := source img; drawn := (drawn img ++ [c])%list |}
|}.

(** The set literal of line 66, which repeats [normal_labels]. *)
Definition box_normal_labels : list string :=
  ["normal kidney"; "normal_kidney"; "normal"].

Section Renderer.
Context {PIL : Imaging}.

(** The body of the [for] loop, lines 53-69; [continue] returns the image
    as it is. *)
Definition draw_detection (img : image) (det : value) : result image :=
  box0 <- get det "box" ;;
  let box := py_or box0 (PDict []) in
  x1 <- get box "x1" ;;
  x2 <- get box "x2" ;;
  y1 <- get box "y1" ;;
  y2 <- get box "y2" ;;
  if existsb is_none [x1; x2; y1; y2] then
    ret img
  else
    name <- get det "name" ;;
    label <- call_strip (py_or name (PStr "object")) ;;
    confidence <- get det "confidence" ;;
    let color :=
      if existsb (String.eqb (lower label)) box_normal_labels
      then "green" else "red" in
    rectangle img
      {| xy := [x1; y1; x2; y2]; fill := None;
         outline := Some color; width := 3 |}.

Fixpoint draw_each (img : image) (dets : list value) : result image :=
  match dets with
  | [] => ret img
  | det :: rest =>
      img' <- draw_detection img det ;;
      draw_each img' rest
  end.

Definition draw_bounding_boxes (image_bytes : list byte) (detections : value)
  : result image :=
  img <- open_rgb image_bytes ;;
  dets <- iterate (py_or detections (PList [])) ;;
  draw_each img dets.

(** Lines 139-140 of [main]: the verdict, then the annotated image. *)
Definition analyze (image_bytes : list byte) (result_json : value)
  : result (image * string * bool) :=
  v <- interpret_results result_json ;;
  let '(message, detections, positive) := v in
  annotated_image <- draw_bounding_boxes image_bytes detections ;;
  ret (annotated_image, message, positive).

End Renderer.

(** ** The remote inference call (app.py, lines 10-26) *)

Definition API_URL : string := "https://predict.ultralytics.com".
Definition MODEL_URL : string :=
  "https://hub.ultralytics.com/models/eAjS72HEB8er9T7UWut0".
Definition DEFAULT_API_KEY : string :=
  "ba9e29dcecf5b19a768e56a4f616df5d03baeef036".

(** [os.getenv(name, default)] over the process environment. *)
Fixpoint getenv (environ : list (string * string)) (name default : string)
  : string :=
  match environ with
  | [] => default
  | (k, v) :: rest => if (k =? name)%string then v else getenv rest name default
  end.

(** The module global [API_KEY] as line 11 sets it at import time. *)
Definition API_KEY (environ : list (string * string)) : value :=
  PStr (getenv environ "ULTRALYTICS_API_KEY" DEFAULT_API_KEY).

(** One part of the multipart upload: file name, content and content type. *)
Record upload : Type := {
  filename : string;
  content : list byte;
  content_type : string
}.

(** The arguments of one [requests.post] call. *)
Record request : Type := {
  url : string;
  headers : list (string * value);
  data : list (string * value);
  files : list (string * upload);
  timeout : Z
}.

(** What the function reads from a [requests.Response]: the status code and
    the outcome of [response.json()]. *)
Record response : Type := {
  status_code : Z;
  json : request_failure + value
}.

(** The remote endpoint as [requests.post] sees it: a failure of the
    transport or a response. *)
Class Transport : Type := {
  post : request -> request_failure + response
}.

(** Code that talks to the network: it threads the list of requests sent so
    far, oldest first, and returns or raises. *)
Definition net (A : Type) : Type := list request -> result A * list request.

Definition net_ret {A} (a : A) : net A := fun sent => (ret a, sent).
Definition net_raise {A} (e : exn) : net A := fun sent => (raise e, sent).
Definition net_bind {A B} (m : net A) (k : A -> net B) : net B :=
  fun sent =>
    match m sent with
    | (inl e, sent') => (inl e, sent')
    | (inr a, sent') => k a sent'
    end.

Notation "x <~ m ;; k" := (net_bind m (fun x => k))
  (at level 61, m at next level, right associativity) : py_scope.

(** The IEEE doubles of the literals [0.25] and [0.45]. *)
Definition conf_threshold : spec_float :=
  S754_finite false 4503599627370496 (-54).
Definition iou_threshold : spec_float :=
  S754_finite false 8106479329266893 (-54).

Section Invoker.
Context {remote : Transport}.

(** [requests.post(...)]: the request goes out, then the call returns the
    response or raises. *)
Definition requests_post (r : request) : net response :=
  fun sent =>
    match post r with
    | inl f => (raise (RequestException f), (sent ++ [r])%list)
    | inr resp => (ret resp, (sent ++ [r])%list)
    end.

(** [response.raise_for_status()]: [HTTPError] for 4xx and 5xx. *)
Definition raise_for_status (resp : response) : net unit :=
  if (400 <=? status_code resp) && (status_code resp <? 600)
  then net_raise (RequestException (HTTPError (status_code resp)))
  else net_ret tt.

(** [response.json()]. *)
Definition response_json (resp : response) : net value :=
  match json resp with
  | inl f => net_raise (RequestException f)
  | inr v => net_ret v
  end.

(** [api_key] is the value the module global [API_KEY] holds when the
    function runs. *)
Definition call_ultralytics_api (api_key : value) (image_bytes : list byte)
  : net value :=
  if negb (truthy api_key) then
    net_raise (RuntimeError
      "Ultralytics API key is missing. Set ULTRALYTICS_API_KEY env var or edit app.py.")
  else
    let headers := [("x-api-key", api_key)] in
    let data := [("model", PStr MODEL_URL); ("imgsz", PInt 640);
                 ("conf", PFloat conf_threshold);
                 ("iou", PFloat iou_threshold)] in
    let files := [("file", {| filename := "upload.jpg";
                              content := image_bytes;
                              content_type := "image/jpeg" |})] in
    resp <~ requests_post {| url := API_URL; headers := headers;
                             data := data; files := files;
                             timeout := 60 |} ;;
    _ <~ raise_for_status resp ;;
    response_json resp.

End Invoker.

(** ** The response schema

    The shape of section 6 of the specification:
    [{"images": [{"results": [{"name": str, "confidence": number,
    "box": {...}}, ...]}, ...]}], where a key may be absent and a name may be
    [null]. *)

Definition text_or_absent (o : option value) : bool :=
  match o with
  | None | Some PNone | Some (PStr _) => true
  | Some _ => false
  end.

Definition wf_detection (det : value) : bool :=
  match det with
  | PDict kvs => text_or_absent (lookup "name" kvs)
  | _ => false
  end.

Definition wf_group (group : value) : bool :=
  match group with
  | PDict kvs =>
      match lookup "results" kvs with
      | None => true
      | Some (PList dets) => forallb wf_detection dets
      | Some _ => false
      end
  | _ => false
  end.

Definition wf_response (result_json : value) : bool :=
  match result_json with
  | PDict kvs =>
      match lookup "images" kvs with
      | None => true
      | Some (PList groups) => forallb wf_group groups
      | Some _ => false
      end
  | _ => false
  end.

(** The label text of a detection: its name, or the empty text when the
    name is absent or [null]. *)
Definition det_name (det : value) : string :=
  match det with
  | PDict kvs =>
      match lookup "name" kvs with
      | Some (PStr s) => s
      | _ => ""
      end
  | _ => ""
  end.

Definition name_missing (det : value) : bool :=
  match det with
  | PDict kvs =>
      match lookup "name" kvs with
      | None | Some PNone => true
      | Some _ => false
      end
  | _ => false
  end.

(** [first_results j dets]: [j] is an object whose first image group is an
    object with the detection list [dets]. *)
Definition first_results (result_json : value) (dets : list value) : Prop :=
  exists kvs group groups,
    result_json = PDict kvs /\
    lookup "images" kvs = Some (PList (PDict group :: groups)) /\
    lookup "results" group = Some (PList dets).

(** [no_groups j]: [j] is an object whose "images" list is absent or
    empty. *)
Definition no_groups (result_json : value) : Prop :=
  exists kvs,
    result_json = PDict kvs /\
    (lookup "images" kvs = None \/ lookup "images" kvs = Some (PList [])).

(** The box of a detection, as its list of fields: empty when the box is
    absent or [null]. *)
Definition box_fields (det : value) : option (list (string * value)) :=
  match det with
  | PDict kvs =>
      match lookup "box" kvs with
      | None | Some PNone => Some []
      | Some (PDict b) => Some b
      | Some _ => None
      end
  | _ => None
  end.

Definition coord (b : list (string * value)) (c : string) : value :=
  match lookup c b with
  | Some v => v
  | None => PNone
  end.

(** A coordinate is missing when it is absent or [null]. *)
Definition coord_missing (b : list (string * value)) (c : string) : bool :=
  is_none (coord b c).

Definition missing_coordinate (b : list (string * value)) : bool :=
  existsb (coord_missing b) ["x1"; "y1"; "x2"; "y2"].

(** JSON literals used in the examples. *)
Definition detection (name : string) (x1 y1 x2 y2 : Z) : value :=
  PDict [("name", PStr name);
         ("box", PDict [("x1", PInt x1); ("y1", PInt y1);
                        ("x2", PInt x2); ("y2", PInt y2)])].

Definition response_of (dets : list value) : value :=
  PDict [("images", PList [PDict [("results", PList dets)]])].

(** What [interpret_results] does once it holds [results], lines 35-45. *)
Definition classify (results : value) : result verdict :=
  if negb (truthy results) then
    ret ("Normal Kidney (no stones detected)", results, false)
  else
    items <- iterate results ;;
    has_non_normal <- py_any non_normal items ;;
    if has_non_normal then
      ret ("Kidney Stone Detected", results, true)
    else
      ret ("Normal Kidney (no stones detected)", results, false).

Definition consistent (v : verdict) : Prop :=
  let '(message, detections, positive) := v in
  (positive = true <-> message = "Kidney Stone Detected") /\
  (positive = true -> exists det rest, detections = PList (det :: rest)).

(** An endpoint that cannot be reached, and one that answers every request
    with the same status and body. *)
Definition unreachable : Transport := {|
  post := fun _ => inl ConnectionError
|}.

Definition answering (status : Z) (body : value) : Transport := {|
  post := fun _ => inr {| status_code := status; json := inr body |}
|}.

(** The message of line 17. *)
Definition missing_key_message : string :=
  "Ultralytics API key is missing. Set ULTRALYTICS_API_KEY env var or edit app.py.".

(** ** The page (app.py, lines 74-152) *)

(** The fixed texts of the page, by name: the title, the introduction and
    the privacy policy. *)
Inductive static_text : Type :=
| TitleText
| IntroText
| PrivacyPolicyText.

(** What the visitor does in one run of the script: the state of the
    checkbox and the file in the uploader, if any, as [read()] returns it. *)
Record session : Type := {
  agree : bool;
  uploaded_file : option (list byte)
}.

Section Page.
Context {PIL : Imaging} {remote : Transport}.

(** The Streamlit calls of [main], in the order they are made.  A [with]
    block is the event that opens it followed by the events of its body.
    [ErrorProcessing e] is [st.error] of the text of line 152, which
    interpolates the exception [e]; [ErrorMessage] is [st.error(message)]. *)
Inductive ui_event : Type :=
| SetPageConfig
| Markdown (t : static_text)
| Expander (label : string) (expanded : bool)
| Checkbox (label : string)
| Info (text : string)
| FileUploader (label : string)
| Spinner (text : string)
| ShowImage (img : image) (caption : string)
| ErrorMessage (message : string)
| ErrorProcessing (e : exn)
| SuccessMessage (message : string)
| ShowJson (v : value).

(** A function that does not touch the network, run inside one that does. *)
Definition lift {A} (m : result A) : net A := fun sent => (m, sent).

(** Lines 138-150, the body of [try] after the spinner is shown: the three
    steps, then the image, the banner and the raw output. *)
Definition show_analysis (api_key : value) (image_bytes : list byte)
  : net (list ui_event) :=
  result_json <~ call_ultralytics_api api_key image_bytes ;;
  r <~ lift (analyze image_bytes result_json) ;;
  let '(annotated_image, message, positive) := r in
  net_ret [ShowImage annotated_image "Analyzed Image";
           (if positive : bool then ErrorMessage message
            else SuccessMessage message);
           Expander "View Raw Model Output" false;
           ShowJson result_json].

(** Lines 75-121: everything up to the checkbox. *)
Definition preamble : list ui_event :=
  [SetPageConfig; Markdown TitleText; Markdown IntroText;
   Expander "View Privacy Policy Details" true; Markdown PrivacyPolicyText;
   Checkbox "I agree to the Privacy Policy"].

(** [main()]: the events of one run and the requests sent by its end. *)
Definition main (api_key : value) (s : session) (sent : list request)
  : list ui_event * list request :=
  if negb (agree s) then
    ((preamble ++
      [Info "Please read and agree to the Privacy Policy above to proceed with image upload and analysis."])%list,
     sent)
  else
    let page :=
      (preamble ++
       [FileUploader "Upload an ultrasound image for kidney stone detection"])%list in
    match uploaded_file s with
    | None => (page, sent)
    | Some image_bytes =>
        match show_analysis api_key image_bytes sent with
        | (inr shown, sent') =>
            ((page ++ Spinner "Analyzing image, please wait..." :: shown)%list,
             sent')
        | (inl e, sent') =>
            ((page ++ [Spinner "Analyzing image, please wait...";
                       ErrorProcessing e])%list,
             sent')
        end
    end.

End Page.

(** ** Rendering, stated over the list of detections *)

(** The outline of a detection by its trimmed, lower-cased label. *)
Definition outline_of (det : value) : string :=
  if in_normal_labels (lower (strip (det_name det))) then "green" else "red".

(** The rectangle a detection asks for: none when its box lacks a
    coordinate. *)
Definition rectangle_of (det : value) : option rectangle_call :=
  match box_fields det with
  | Some b =>
      if missing_coordinate b then None
      else Some {| xy := [coord b "x1"; coord b "y1";
                          coord b "x2"; coord b "y2"];
                   fill := None;
                   outline := Some (outline_of det);
                   width := 3 |}
  | None => None
  end.

Definition expected_rectangles (dets : list value) : list rectangle_call :=
  flat_map (fun det => match rectangle_of det with
                       | Some c => [c]
                       | None => []
                       end) dets.

(** A detection the renderer can handle: the box is absent, [null] or an
    object, and, when the four coordinates are there, the name is text,
    [null] or absent. *)
Definition renderable (det : value) : bool :=
  match box_fields det with
  | Some b => missing_coordinate b || wf_detection det
  | None => false
  end.

(** The calls of [rectangle] made one after the other. *)
Fixpoint draw_calls {PIL : Imaging} (img : image)
         (calls : list rectangle_call) : result image :=
  match calls with
  | [] => ret img
  | c :: rest => img' <- rectangle img c ;; draw_calls img' rest
  end.

(** The request of lines 19-24 for a key and an image. *)
Definition upload_request (api_key : value) (image_bytes : list byte)
  : request :=
  {| url := API_URL;
     headers := [("x-api-key", api_key)];
     data := [("model", PStr MODEL_URL); ("imgsz", PInt 640);
              ("conf", PFloat conf_threshold);
              ("iou", PFloat iou_threshold)];
     files := [("file", {| filename := "upload.jpg";
                           content := image_bytes;
                           content_type := "image/jpeg" |})];
     timeout := 60 |}.

(** The message and the flag of a verdict, as the page shows them. *)
Definition shown_verdict (r : result verdict) : result (string * bool) :=
  v <- r ;;
  let '(message, _, positive) := v in
  ret (message, positive).

(** The three messages of [interpret_results]. *)
Definition verdict_messages : list string :=
  ["No prediction available"; "Normal Kidney (no stones detected)";
   "Kidney Stone Detected"].

(** The value [det.get("name")] returns for an object with fields [kvs]. *)
Definition name_value (kvs : list (string * value)) : value :=
  match lookup "name" kvs with
  | Some v => v
  | None => PNone
  end.

Definition is_text (v : value) : bool :=
  match v with PStr _ => true | _ => false end.

Definition is_object (v : value) : bool :=
  match v with PDict _ => true | _ => false end.

(** The value [det.get("box")] returns for an object with fields [kvs]. *)
Definition box_value (kvs : list (string * value)) : value :=
  match lookup "box" kvs with
  | Some v => v
  | None => PNone
  end.

(** The shape of every [rectangle] call the renderer makes: four
    coordinates, none of them [None], no fill, width 3, outline green or
    red. *)
Definition renderer_call (c : rectangle_call) : Prop :=
  List.length (xy c) = 4%nat /\
  Forall (fun x => is_none x = false) (xy c) /\
  fill c = None /\ width c = 3 /\
  (outline c = Some "green" \/ outline c = Some "red").

(** The number of detections of a list; no other value gets a rectangle. *)
Definition detection_count (detections : value) : nat :=
  match detections with
  | PList dets => List.length dets
  | _ => 0%nat
  end.

(** The parts of the page after the checkbox, named for the statements
    about [main]. *)
Section PageParts.
Context {PIL : Imaging}.

(** The page up to the uploader, lines 75-131. *)
Definition upload_page : list ui_event :=
  (preamble ++
   [FileUploader "Upload an ultrasound image for kidney stone detection"])%list.

Definition spinner : ui_event := Spinner "Analyzing image, please wait...".

(** Lines 142-150: the image, the banner and the raw output. *)
Definition analysis_events (annotated_image : image) (message : string)
           (positive : bool) (result_json : value) : list ui_event :=
  [ShowImage annotated_image "Analyzed Image";
   (if positive then ErrorMessage message else SuccessMessage message);
   Expander "View Raw Model Output" false;
   ShowJson result_json].

End PageParts.

(** A decoder that rejects every input, for the runs in which the upload is
    not an image. *)
Definition Undecodable : Imaging := {|
  image := log_image;
  open_rgb := fun _ => raise UnidentifiedImageError;
  rectangle := fun img c =>
    ret {| source := source img; drawn := (drawn img ++ [c])%list |}
|}.

(** A visitor who agreed to the policy and uploaded [image_bytes]. *)
Definition upload_of (image_bytes : list byte) : session :=
  {| agree := true; uploaded_file := Some image_bytes |}.

(** * Properties *)

(** ** The result interpreter *)

Section InterpreterFacts.

(** On a detection of the schema, the generator item of line 40 returns, and
    its value is decided by the lower-cased label alone. *)
Lemma non_normal_wf (det : value) :
  wf_detection det = true ->
  non_normal det = inr (negb (in_normal_labels (lower (det_name det)))).
Proof.
  destruct det as [| | | | |l|kvs]; simpl; try discriminate.
  unfold non_normal, get, get_default; simpl.
  destruct (lookup "name" kvs) as [[| | | |s| |]|]; simpl; try discriminate;
    intros _; try reflexivity.
  unfold py_or; simpl.
  destruct s as [|c s]; reflexivity.
Qed.

(** Over detections of the schema, [any] is the disjunction of the items. *)
Lemma py_any_wf (dets : list value) :
  forallb wf_detection dets = true ->
  py_any non_normal dets =
  inr (existsb (fun d => negb (in_normal_labels (lower (det_name d)))) dets).
Proof.
  induction dets as [|d rest IH]; simpl; [reflexivity|].
  intros Hwf. apply andb_prop in Hwf as [Hd Hrest].
  rewrite (non_normal_wf d Hd); simpl.
  destruct (negb (in_normal_labels (lower (det_name d)))); simpl.
  - reflexivity.
  - exact (IH Hrest).
Qed.

(** With a first group holding a non-empty list, the function reaches
    line 40 and the verdict follows [has_non_normal]. *)
Lemma interpret_results_first (j : value) (det : value) (rest : list value) :
  first_results j (det :: rest) ->
  interpret_results j =
  (has_non_normal <- py_any non_normal (det :: rest) ;;
   if has_non_normal
   then ret ("Kidney Stone Detected", PList (det :: rest), true)
   else ret ("Normal Kidney (no stones detected)", PList (det :: rest), false)).
Proof.
  intros (kvs & group & groups & -> & Himg & Hres).
  unfold interpret_results, get_default; simpl.
  rewrite Himg; simpl. rewrite Hres; simpl. reflexivity.
Qed.

Lemma name_missing_non_normal (det : value) :
  name_missing det = true ->
  wf_detection det = true /\ in_normal_labels (lower (det_name det)) = false.
Proof.
  destruct det as [| | | | |l|kvs]; simpl; try discriminate.
  destruct (lookup "name" kvs) as [[| | | |s| |]|]; simpl; try discriminate;
    intros _; split; reflexivity.
Qed.

(** C1. For a response whose first image group holds a non-empty list of
    detections of the schema, as soon as one detection has a lower-cased
    label outside the normal-label set, [interpret_results] returns the
    message "Kidney Stone Detected", the detection list as it came, and
    [True]: one non-normal label is enough. *)
Theorem interpret_results_positive (j : value) (dets : list value) :
  first_results j dets ->
  Forall (fun d => wf_detection d = true) dets ->
  Exists (fun d => in_normal_labels (lower (det_name d)) = false) dets ->
  interpret_results j = inr ("Kidney Stone Detected", PList dets, true).
Proof.
  intros Hfirst Hwf Hex.
  destruct dets as [|det rest]; [inversion Hex|].
  rewrite (interpret_results_first j det rest Hfirst).
  rewrite py_any_wf by (apply forallb_forall; apply Forall_forall; exact Hwf).
  replace (existsb _ (det :: rest)) with true; [reflexivity|].
  symmetry. apply existsb_exists.
  apply Exists_exists in Hex as (d & Hin & Hd).
  exists d. split; [exact Hin|]. rewrite Hd. reflexivity.
Qed.

Lemma interpret_results_positive_witness :
  interpret_results (response_of [detection "normal" 1 2 3 4;
                                  detection "Stone" 10 10 50 50]) =
  inr ("Kidney Stone Detected",
       PList [detection "normal" 1 2 3 4; detection "Stone" 10 10 50 50],
       true).
Proof.
  apply interpret_results_positive.
  - eexists _, _, _. repeat split; reflexivity.
  - repeat constructor.
  - apply Exists_cons_tl, Exists_cons_hd. reflexivity.
Defined.

(** C3. When the first image group exists and its detection list is empty,
    [interpret_results] returns exactly
    ("Normal Kidney (no stones detected)", [], False). *)
Theorem interpret_results_empty (j : value) :
  first_results j [] ->
  interpret_results j =
  inr ("Normal Kidney (no stones detected)", PList [], false).
Proof.
  intros (kvs & group & groups & -> & Himg & Hres).
  unfold interpret_results, get_default; simpl.
  rewrite Himg; simpl. rewrite Hres; simpl. reflexivity.
Qed.

Lemma interpret_results_empty_witness :
  interpret_results (response_of []) =
  inr ("Normal Kidney (no stones detected)", PList [], false).
Proof.
  apply interpret_results_empty.
  eexists _, _, _. repeat split; reflexivity.
Defined.

(** C4. When the response has no image-result group, the "images" list being
    absent or empty, [interpret_results] returns exactly
    ("No prediction available", [], False). *)
Theorem interpret_results_no_groups (j : value) :
  no_groups j ->
  interpret_results j = inr ("No prediction available", PList [], false).
Proof.
  intros (kvs & -> & [Himg | Himg]);
    unfold interpret_results, get_default; simpl;
    rewrite Himg; reflexivity.
Qed.

Lemma interpret_results_no_groups_witness :
  interpret_results (PDict [("images", PList [])]) =
  inr ("No prediction available", PList [], false) /\
  interpret_results (PDict []) =
  inr ("No prediction available", PList [], false).
Proof.
  split; apply interpret_results_no_groups;
    eexists; (split; [reflexivity|]); [right | left]; reflexivity.
Defined.

(** C9. A detection whose "name" is absent or [null] has the empty label,
    which is outside the normal-label set: a list of detections of the schema
    that contains one yields ("Kidney Stone Detected", the list, True). *)
Theorem interpret_results_missing_name (j : value) (dets : list value) :
  first_results j dets ->
  Forall (fun d => wf_detection d = true) dets ->
  Exists (fun d => name_missing d = true) dets ->
  interpret_results j = inr ("Kidney Stone Detected", PList dets, true).
Proof.
  intros Hfirst Hwf Hex.
  destruct dets as [|det rest]; [inversion Hex|].
  rewrite (interpret_results_first j det rest Hfirst).
  rewrite py_any_wf by (apply forallb_forall; apply Forall_forall; exact Hwf).
  replace (existsb _ (det :: rest)) with true; [reflexivity|].
  symmetry. apply existsb_exists.
  apply Exists_exists in Hex as (d & Hin & Hd).
  exists d. split; [exact Hin|].
  apply name_missing_non_normal in Hd as [_ Hd]. rewrite Hd. reflexivity.
Qed.

Lemma interpret_results_missing_name_witness :
  interpret_results
    (response_of [detection "normal" 1 2 3 4;
                  PDict [("name", PNone); ("confidence", PInt 1)];
                  PDict [("confidence", PInt 1)]]) =
  inr ("Kidney Stone Detected",
       PList [detection "normal" 1 2 3 4;
              PDict [("name", PNone); ("confidence", PInt 1)];
              PDict [("confidence", PInt 1)]],
       true).
Proof.
  apply interpret_results_missing_name.
  - eexists _, _, _. repeat split; reflexivity.
  - repeat constructor.
  - apply Exists_cons_tl, Exists_cons_hd. reflexivity.
Defined.

End InterpreterFacts.

Section InterpreterConsistency.

Lemma py_any_raises (dets : list value) (e : exn) :
  py_any non_normal dets = inl e -> forallb wf_detection dets = false.
Proof.
  intros Hraise.
  destruct (forallb wf_detection dets) eqn:Hwf; [|reflexivity].
  rewrite (py_any_wf dets Hwf) in Hraise. discriminate.
Qed.

(** The items of a text or of an object are texts, which have no [get]:
    the first item already raises. *)
Lemma py_any_chars (c : ascii) (s : string) :
  py_any non_normal (chars (String c s)) = inl AttributeError.
Proof. reflexivity. Qed.

Lemma py_any_keys (kv : string * value) (kvs : list (string * value)) :
  py_any non_normal (map (fun kv => PStr (fst kv)) (kv :: kvs)) =
  inl AttributeError.
Proof. reflexivity. Qed.

Lemma consistent_negative (message : string) (d : value) :
  message <> "Kidney Stone Detected" -> consistent (message, d, false).
Proof.
  intros Hmsg. split.
  - split; [discriminate | intros ->; contradiction].
  - discriminate.
Qed.

Lemma classify_consistent (results : value) :
  match classify results with
  | inr v => consistent v
  | inl _ =>
      match results with
      | PList dets => forallb wf_detection dets = false
      | _ => True
      end
  end.
Proof.
  unfold classify.
  destruct (truthy results) eqn:Htruthy; simpl;
    [|apply consistent_negative; discriminate].
  destruct results as [| | | |s|dets|kvs]; simpl; trivial.
  - destruct s as [|c s]; [discriminate|].
    rewrite py_any_chars. exact I.
  - destruct (py_any non_normal dets) as [e|[|]] eqn:Hany; simpl.
    + exact (py_any_raises dets e Hany).
    + destruct dets as [|det rest]; [discriminate|].
      split; [split; reflexivity|]. intros _. eauto.
    + apply consistent_negative; discriminate.
  - destruct kvs as [|kv kvs]; [discriminate|].
    rewrite py_any_keys. exact I.
Qed.

Lemma interpret_results_group (kvs group : list (string * value))
      (groups : list value) :
  lookup "images" kvs = Some (PList (PDict group :: groups)) ->
  interpret_results (PDict kvs) =
  classify (match lookup "results" group with
            | Some v => v
            | None => PList []
            end).
Proof.
  intros Himg. unfold interpret_results, classify, get_default; simpl.
  rewrite Himg; reflexivity.
Qed.

(** C10. Whatever the input, the three components [interpret_results]
    returns agree: the flag is [True] exactly when the message is "Kidney
    Stone Detected", and then the detection list is a non-empty list.  The
    function returns on every response of the schema: it raises only on an
    input outside it. *)
Theorem interpret_results_consistent (j : value) :
  match interpret_results j with
  | inr v => consistent v
  | inl _ => wf_response j = false
  end.
Proof.
  destruct j as [| | | | | |kvs]; try reflexivity.
  destruct (lookup "images" kvs) as [images|] eqn:Himg.
  2:{ unfold interpret_results, get_default; simpl. rewrite Himg; simpl.
      apply consistent_negative; discriminate. }
  destruct images as [| [|] | z | f | s | groups | ikvs];
    try (unfold interpret_results, get_default; simpl; rewrite Himg; simpl;
         first [ reflexivity | apply consistent_negative; discriminate ]).
  - (* an integer *)
    unfold interpret_results, get_default; simpl. rewrite Himg; simpl.
    destruct (z =? 0); simpl;
      [apply consistent_negative; discriminate | reflexivity].
  - (* a float *)
    unfold interpret_results, get_default; simpl. rewrite Himg; simpl.
    destruct f; simpl;
      first [ reflexivity | apply consistent_negative; discriminate ].
  - (* a text *)
    unfold interpret_results, get_default; simpl. rewrite Himg; simpl.
    destruct s as [|c s]; simpl;
      [apply consistent_negative; discriminate | reflexivity].
  - (* a list of groups *)
    destruct groups as [|group groups].
    { unfold interpret_results, get_default; simpl. rewrite Himg; simpl.
      apply consistent_negative; discriminate. }
    destruct group as [| | | | | |gkvs];
      try (unfold interpret_results, get_default; simpl; rewrite Himg;
           reflexivity).
    rewrite (interpret_results_group kvs gkvs groups Himg).
    simpl. rewrite Himg. simpl.
    pose proof (classify_consistent
                  (match lookup "results" gkvs with
                   | Some v => v
                   | None => PList []
                   end)) as Hc.
    destruct (classify _) as [e|v]; [|exact Hc].
    destruct (lookup "results" gkvs) as [results|]; [|discriminate Hc].
    destruct results; try reflexivity.
    rewrite Hc. reflexivity.
  - (* an object *)
    unfold interpret_results, get_default; simpl. rewrite Himg; simpl.
    destruct ikvs; simpl;
      [apply consistent_negative; discriminate | reflexivity].
Qed.

End InterpreterConsistency.

(** ** The box renderer *)

Section RendererFacts.
Context {PIL : Imaging}.

Lemma draw_bounding_boxes_list (image_bytes : list byte) (dets : list value) :
  draw_bounding_boxes image_bytes (PList dets) =
  (img <- open_rgb image_bytes ;; draw_each img dets).
Proof.
  unfold draw_bounding_boxes. destruct dets; reflexivity.
Qed.

Lemma draw_each_app (img : image) (l1 l2 : list value) :
  draw_each img (l1 ++ l2) = (img' <- draw_each img l1 ;; draw_each img' l2).
Proof.
  revert img. induction l1 as [|d l1 IH]; intros img; simpl; [reflexivity|].
  destruct (draw_detection img d) as [e|img']; simpl; [reflexivity|].
  apply IH.
Qed.

(** The four lookups of lines 54-57 on a box of the schema. *)
Lemma draw_detection_box (img : image) (det : value)
      (b : list (string * value)) :
  box_fields det = Some b ->
  draw_detection img det =
  if missing_coordinate b then ret img
  else
    (name <- get det "name" ;;
     label <- call_strip (py_or name (PStr "object")) ;;
     rectangle img
       {| xy := [coord b "x1"; coord b "y1"; coord b "x2"; coord b "y2"];
          fill := None;
          outline := Some (if in_normal_labels (lower label)
                           then "green" else "red");
          width := 3 |}).
Proof.
  destruct det as [| | | | | |kvs]; simpl; try discriminate.
  intros Hbox.
  assert (Hor : exists b', py_or (match lookup "box" kvs with
                                  | Some v => v
                                  | None => PNone
                                  end) (PDict []) = PDict b' /\
                           forall c, lookup c b' = lookup c b).
  { destruct (lookup "box" kvs) as [[| | | | | |b0]|]; try discriminate;
      injection Hbox as <-; try (exists []; split; reflexivity).
    exists b0. split; [destruct b0; reflexivity | reflexivity]. }
  destruct Hor as (b' & Hor & Hb').
  unfold draw_detection, get, get_default at 1; simpl. rewrite Hor.
  unfold get_default; simpl. rewrite !Hb'.
  unfold missing_coordinate, coord_missing, coord; simpl.
  destruct (lookup "x1" b) as [[]|], (lookup "x2" b) as [[]|],
           (lookup "y1" b) as [[]|], (lookup "y2" b) as [[]|];
    simpl; try reflexivity;
    destruct (lookup "name" kvs) as [name|]; simpl;
    destruct (call_strip _); reflexivity.
Qed.

Lemma bind_ret_id {A : Type} (m : result A) : (x <- m ;; ret x) = m.
Proof. destruct m; reflexivity. Qed.

(** C6. A detection of which at least one of x1, y1, x2, y2 is absent or
    [null] is skipped: rendering a list that contains it does exactly what
    rendering the list without it does, so it raises nothing, no rectangle is
    drawn for it, and the detections around it are rendered as before. *)
Theorem draw_bounding_boxes_skips (image_bytes : list byte)
        (before after : list value) (det : value)
        (b : list (string * value)) :
  box_fields det = Some b ->
  missing_coordinate b = true ->
  draw_bounding_boxes image_bytes (PList (before ++ det :: after)) =
  draw_bounding_boxes image_bytes (PList (before ++ after)).
Proof.
  intros Hbox Hmiss.
  rewrite !draw_bounding_boxes_list.
  destruct (open_rgb image_bytes) as [e|img]; simpl; [reflexivity|].
  rewrite !draw_each_app.
  destruct (draw_each img before) as [e|img']; simpl; [reflexivity|].
  rewrite (draw_detection_box img' det b Hbox), Hmiss. reflexivity.
Qed.

(** C7. A detection of the schema with its four coordinates present gets one
    call of [rectangle] at [x1, y1, x2, y2], not filled, 3 wide, whose outline
    is green when the trimmed, lower-cased label is in the normal-label set
    and red otherwise. *)
Theorem draw_bounding_boxes_outline (image_bytes : list byte)
        (before : list value) (det : value) (b : list (string * value)) :
  wf_detection det = true ->
  box_fields det = Some b ->
  missing_coordinate b = false ->
  draw_bounding_boxes image_bytes (PList (before ++ [det])) =
  (img <- draw_bounding_boxes image_bytes (PList before) ;;
   rectangle img
     {| xy := [coord b "x1"; coord b "y1"; coord b "x2"; coord b "y2"];
        fill := None;
        outline := Some (if in_normal_labels (lower (strip (det_name det)))
                         then "green" else "red");
        width := 3 |}).
Proof.
  intros Hwf Hbox Hpresent.
  rewrite !draw_bounding_boxes_list.
  destruct (open_rgb image_bytes) as [e|img]; simpl; [reflexivity|].
  rewrite draw_each_app.
  destruct (draw_each img before) as [e|img']; simpl; [reflexivity|].
  rewrite (draw_detection_box img' det b Hbox), Hpresent.
  destruct det as [| | | | | |kvs]; try discriminate.
  simpl in Hwf |- *. unfold get, get_default; simpl.
  destruct (lookup "name" kvs) as [[| | | |s| |]|]; try discriminate;
    simpl; try apply bind_ret_id.
  destruct s as [|c s]; simpl; apply bind_ret_id.
Qed.

(** C8. For the response [{"images":[{"results":[]}]}] the verdict is
    "Normal Kidney (no stones detected)" with a false flag, and the renderer,
    given the empty list, returns the decoded input image without a call of
    [rectangle]. *)
Theorem scenario_no_detections (image_bytes : list byte) :
  interpret_results (response_of []) =
    inr ("Normal Kidney (no stones detected)", PList [], false) /\
  draw_bounding_boxes image_bytes (PList []) = open_rgb image_bytes /\
  analyze image_bytes (response_of []) =
    (img <- open_rgb image_bytes ;;
     ret (img, "Normal Kidney (no stones detected)", false)).
Proof.
  split; [reflexivity|]. split.
  - rewrite draw_bounding_boxes_list. simpl. apply bind_ret_id.
  - unfold analyze. simpl. rewrite draw_bounding_boxes_list. simpl.
    destruct (open_rgb image_bytes); reflexivity.
Qed.

End RendererFacts.

Lemma draw_bounding_boxes_skips_witness :
  @draw_bounding_boxes LogImaging [x00]
    (PList ([detection "Stone" 10 10 50 50] ++
            PDict [("name", PStr "Stone");
                   ("box", PDict [("x1", PInt 1); ("y1", PInt 2);
                                  ("x2", PNone)])] ::
            [detection "normal" 1 2 3 4])) =
  @draw_bounding_boxes LogImaging [x00]
    (PList ([detection "Stone" 10 10 50 50] ++ [detection "normal" 1 2 3 4])).
Proof.
  apply (@draw_bounding_boxes_skips LogImaging [x00]
           [detection "Stone" 10 10 50 50] [detection "normal" 1 2 3 4]
           (PDict [("name", PStr "Stone");
                   ("box", PDict [("x1", PInt 1); ("y1", PInt 2);
                                  ("x2", PNone)])])
           [("x1", PInt 1); ("y1", PInt 2); ("x2", PNone)]);
    reflexivity.
Defined.

Lemma draw_bounding_boxes_outline_witness :
  @draw_bounding_boxes LogImaging [x00]
    (PList ([detection "normal kidney" 1 2 3 4] ++
            [detection "Stone" 10 10 50 50])) =
  (img <- @draw_bounding_boxes LogImaging [x00]
            (PList [detection "normal kidney" 1 2 3 4]) ;;
   @rectangle LogImaging img
     {| xy := [PInt 10; PInt 10; PInt 50; PInt 50]; fill := None;
        outline := Some "red"; width := 3 |}).
Proof.
  apply (@draw_bounding_boxes_outline LogImaging [x00]
           [detection "normal kidney" 1 2 3 4]
           (detection "Stone" 10 10 50 50)
           [("x1", PInt 10); ("y1", PInt 10);
            ("x2", PInt 50); ("y2", PInt 50)]);
    reflexivity.
Defined.

(** The two renderings named by the specification, run on the logging
    image: "Stone" is outlined in red, "normal kidney" in green. *)
Example draw_stone_red :
  @draw_bounding_boxes LogImaging [x00]
    (PList [detection "Stone" 10 10 50 50]) =
  inr {| source := [x00];
         drawn := [{| xy := [PInt 10; PInt 10; PInt 50; PInt 50];
                      fill := None; outline := Some "red"; width := 3 |}] |}.
Proof. reflexivity. Qed.

Example draw_normal_kidney_green :
  @draw_bounding_boxes LogImaging [x00]
    (PList [detection "normal kidney" 10 10 50 50]) =
  inr {| source := [x00];
         drawn := [{| xy := [PInt 10; PInt 10; PInt 50; PInt 50];
                      fill := None; outline := Some "green"; width := 3 |}] |}.
Proof. reflexivity. Qed.

(** On the logging image the empty detection list leaves the source bytes
    and an empty list of rectangles. *)
Example draw_nothing (image_bytes : list byte) :
  @draw_bounding_boxes LogImaging image_bytes (PList []) =
  inr {| source := image_bytes; drawn := [] |}.
Proof. reflexivity. Qed.

(** C2. The interpreter lower-cases a label before the comparison but does
    not trim it: "Normal" and "NORMAL_KIDNEY" count as normal, while
    "normal " with a trailing blank does not and yields the positive verdict,
    although the renderer, which trims, outlines that same detection in
    green. *)
Theorem interpret_results_untrimmed_label :
  interpret_results (response_of [detection "Normal" 1 2 3 4;
                                  detection "NORMAL_KIDNEY" 5 6 7 8]) =
    inr ("Normal Kidney (no stones detected)",
         PList [detection "Normal" 1 2 3 4;
                detection "NORMAL_KIDNEY" 5 6 7 8],
         false) /\
  interpret_results (response_of [detection "normal " 1 2 3 4]) =
    inr ("Kidney Stone Detected", PList [detection "normal " 1 2 3 4], true) /\
  @draw_bounding_boxes LogImaging [x00]
    (PList [detection "normal " 1 2 3 4]) =
    inr {| source := [x00];
           drawn := [{| xy := [PInt 1; PInt 2; PInt 3; PInt 4];
                        fill := None; outline := Some "green";
                        width := 3 |}] |}.
Proof. repeat split. Qed.

(** ** The remote inference call *)

Section InvokerFacts.
Context {remote : Transport}.

(** With a key the function sends exactly one request, and whatever it
    raises comes from [requests]. *)
Lemma call_ultralytics_api_with_key (api_key : value)
      (image_bytes : list byte) (sent : list request) :
  truthy api_key = true ->
  (exists r,
      snd (call_ultralytics_api api_key image_bytes sent) = (sent ++ [r])%list) /\
  (forall e,
      fst (call_ultralytics_api api_key image_bytes sent) = inl e ->
      exists f, e = RequestException f).
Proof.
  intros Hkey. unfold call_ultralytics_api. rewrite Hkey; simpl.
  unfold net_bind, requests_post.
  destruct (post _) as [f|resp]; simpl.
  - split; [eauto|]. intros e [= <-]. eauto.
  - unfold raise_for_status.
    destruct ((400 <=? status_code resp) && (status_code resp <? 600));
      simpl.
    + split; [eauto|]. intros e [= <-]. eauto.
    + unfold response_json. destruct (json resp) as [f|v]; simpl.
      * split; [eauto|]. intros e [= <-]. eauto.
      * split; [eauto|]. discriminate.
Qed.

(** C5. When the credential is missing or empty, [call_ultralytics_api]
    raises before anything is sent: the list of requests is unchanged.  What
    it raises is a [RuntimeError] whose message says the key is missing,
    whereas every failure of a call made with a key is an exception of
    [requests]. *)
Theorem call_ultralytics_api_missing_key (api_key : value)
        (image_bytes : list byte) (sent : list request) :
  truthy api_key = false ->
  call_ultralytics_api api_key image_bytes sent =
    (inl (RuntimeError missing_key_message), sent) /\
  (forall key' bytes' sent' e,
      truthy key' = true ->
      fst (call_ultralytics_api key' bytes' sent') = inl e ->
      exists f, e = RequestException f).
Proof.
  intros Hkey. split.
  - unfold call_ultralytics_api. rewrite Hkey. reflexivity.
  - intros key' bytes' sent' e Hkey'.
    apply (call_ultralytics_api_with_key key' bytes' sent' Hkey').
Qed.

End InvokerFacts.

(** Line 11: an empty variable gives an empty key, and an unset variable
    gives the fallback literal, with which the request is sent. *)
Lemma API_KEY_empty :
  API_KEY [("ULTRALYTICS_API_KEY", "")] = PStr "" /\
  truthy (API_KEY [("ULTRALYTICS_API_KEY", "")]) = false.
Proof. split; reflexivity. Qed.

Lemma API_KEY_unset :
  API_KEY [] = PStr DEFAULT_API_KEY /\ truthy (API_KEY []) = true.
Proof. split; reflexivity. Qed.

Lemma call_ultralytics_api_missing_key_witness :
  truthy (API_KEY [("ULTRALYTICS_API_KEY", "")]) = false /\
  @call_ultralytics_api (answering 200 (response_of []))
    (API_KEY [("ULTRALYTICS_API_KEY", "")]) [x00] [] =
  (inl (RuntimeError missing_key_message), []).
Proof.
  split; [reflexivity|].
  apply (@call_ultralytics_api_missing_key (answering 200 (response_of []))
           (API_KEY [("ULTRALYTICS_API_KEY", "")]) [x00] []).
  reflexivity.
Defined.

(** Scenario D: a reply with status 500 raises [HTTPError] after the one
    request, and no verdict is computed. *)
Example call_ultralytics_api_status_500 :
  @call_ultralytics_api (answering 500 PNone) (API_KEY []) [x00] [] =
  (inl (RequestException (HTTPError 500)),
   [{| url := API_URL;
       headers := [("x-api-key", PStr DEFAULT_API_KEY)];
       data := [("model", PStr MODEL_URL); ("imgsz", PInt 640);
                ("conf", PFloat conf_threshold);
                ("iou", PFloat iou_threshold)];
       files := [("file", {| filename := "upload.jpg"; content := [x00];
                             content_type := "image/jpeg" |})];
       timeout := 60 |}]).
Proof. reflexivity. Qed.

(** An endpoint that cannot be reached: the one request is sent and the
    failure of the transport is raised. *)
Example call_ultralytics_api_unreachable :
  fst (@call_ultralytics_api unreachable (API_KEY []) [x00] []) =
    inl (RequestException ConnectionError) /\
  List.length (snd (@call_ultralytics_api unreachable (API_KEY []) [x00] [])) = 1%nat.
Proof. split; reflexivity. Qed.

(** * Further properties *)

(** ** The result interpreter *)

Section InterpreterMore.

(** A label in the normal-label set is a text, so its detection is of the
    schema. *)
Lemma normal_label_wf (det : value) :
  in_normal_labels (lower (det_name det)) = true -> wf_detection det = true.
Proof.
  destruct det as [| | | | | |kvs]; simpl; try discriminate.
  destruct (lookup "name" kvs) as [[| | | |s| |]|]; simpl;
    try discriminate; reflexivity.
Qed.

(** On a first group made of detections of the schema the verdict is
    positive exactly when some lower-cased label is outside the set. *)
Lemma interpret_results_wf (j : value) (dets : list value) :
  first_results j dets ->
  forallb wf_detection dets = true ->
  interpret_results j =
  inr (if existsb (fun d => negb (in_normal_labels (lower (det_name d)))) dets
       then ("Kidney Stone Detected", PList dets, true)
       else ("Normal Kidney (no stones detected)", PList dets, false)).
Proof.
  intros Hfirst Hwf. destruct dets as [|det rest].
  - destruct Hfirst as (kvs & group & groups & -> & Himg & Hres).
    unfold interpret_results, get_default; simpl.
    rewrite Himg; simpl. rewrite Hres; reflexivity.
  - rewrite (interpret_results_first j det rest Hfirst).
    rewrite (py_any_wf _ Hwf).
    destruct (existsb _ (det :: rest)); reflexivity.
Qed.

(** X1. When every label of the first group is, lower-cased, in the
    normal-label set, the verdict is the normal one with the list as it
    came. *)
Theorem interpret_results_negative (j : value) (dets : list value) :
  first_results j dets ->
  Forall (fun d => in_normal_labels (lower (det_name d)) = true) dets ->
  interpret_results j =
  inr ("Normal Kidney (no stones detected)", PList dets, false).
Proof.
  intros Hfirst Hnormal.
  rewrite (interpret_results_wf j dets Hfirst).
  - replace (existsb _ dets) with false; [reflexivity|].
    symmetry. apply not_true_is_false. intros Hex.
    apply existsb_exists in Hex as (d & Hin & Hd).
    rewrite Forall_forall in Hnormal. rewrite (Hnormal d Hin) in Hd.
    discriminate.
  - apply forallb_forall. intros d Hin. apply normal_label_wf.
    rewrite Forall_forall in Hnormal. exact (Hnormal d Hin).
Qed.

Lemma interpret_results_negative_witness :
  interpret_results (response_of [detection "Normal Kidney" 1 2 3 4;
                                  detection "normal_kidney" 5 6 7 8]) =
  inr ("Normal Kidney (no stones detected)",
       PList [detection "Normal Kidney" 1 2 3 4;
              detection "normal_kidney" 5 6 7 8],
       false).
Proof.
  apply interpret_results_negative.
  - eexists _, _, _. repeat split; reflexivity.
  - repeat constructor.
Defined.

(** X2. Only the first image group is read: the other groups and the other
    keys of the response do not change what is returned. *)
Theorem interpret_results_first_group_only
        (kvs : list (string * value)) (group : value) (groups : list value) :
  lookup "images" kvs = Some (PList (group :: groups)) ->
  interpret_results (PDict kvs) =
  interpret_results (PDict [("images", PList [group])]).
Proof.
  intros Himg. unfold interpret_results, get_default; simpl.
  rewrite Himg. reflexivity.
Qed.

Lemma interpret_results_first_group_only_witness :
  interpret_results
    (PDict [("id", PInt 7);
            ("images", PList [PDict [("results", PList [])];
                              PDict [("results",
                                      PList [detection "Stone" 1 2 3 4])]])]) =
  interpret_results (PDict [("images", PList [PDict [("results", PList [])]])]).
Proof.
  apply (interpret_results_first_group_only _ _
           [PDict [("results", PList [detection "Stone" 1 2 3 4])]]).
  reflexivity.
Defined.

(** [any] over a list that starts with detections of the schema. *)
Lemma py_any_prefix (before after : list value) (det : value) :
  forallb wf_detection before = true ->
  py_any non_normal (before ++ det :: after) =
  if existsb (fun d => negb (in_normal_labels (lower (det_name d)))) before
  then inr true
  else (b <- non_normal det ;;
        if b then ret true else py_any non_normal after).
Proof.
  induction before as [|d before IH]; simpl; [reflexivity|].
  intros Hwf. apply andb_prop in Hwf as [Hd Hrest].
  rewrite (non_normal_wf d Hd); simpl.
  destruct (negb (in_normal_labels (lower (det_name d)))); simpl.
  - reflexivity.
  - exact (IH Hrest).
Qed.

(** X3. [any] stops at the first non-normal label: whatever follows it in
    the list, items that are not detections included, is not looked at and
    the verdict is positive. *)
Theorem interpret_results_short_circuit
        (j : value) (before after : list value) (det : value) :
  first_results j (before ++ det :: after) ->
  Forall (fun d => wf_detection d = true) before ->
  wf_detection det = true ->
  in_normal_labels (lower (det_name det)) = false ->
  interpret_results j =
  inr ("Kidney Stone Detected", PList (before ++ det :: after), true).
Proof.
  intros Hfirst Hwf Hdet Hlabel.
  assert (Hany : py_any non_normal (before ++ det :: after) = inr true).
  { rewrite py_any_prefix
      by (apply forallb_forall; apply Forall_forall; exact Hwf).
    rewrite (non_normal_wf det Hdet), Hlabel; simpl.
    destruct (existsb _ before); reflexivity. }
  destruct (before ++ det :: after)%list as [|d0 rest] eqn:Hlist.
  - destruct before; discriminate.
  - rewrite (interpret_results_first j d0 rest Hfirst), Hany. reflexivity.
Qed.

Lemma interpret_results_short_circuit_witness :
  interpret_results (response_of ([detection "normal" 1 2 3 4] ++
                                  detection "Stone" 5 6 7 8 ::
                                  [PInt 3; PStr "junk"])) =
  inr ("Kidney Stone Detected",
       PList ([detection "normal" 1 2 3 4] ++
              detection "Stone" 5 6 7 8 :: [PInt 3; PStr "junk"]),
       true).
Proof.
  apply interpret_results_short_circuit.
  - eexists _, _, _. repeat split; reflexivity.
  - repeat constructor.
  - reflexivity.
  - reflexivity.
Defined.

Lemma existsb_Permutation {A : Type} (f : A -> bool) (l l' : list A) :
  Permutation l l' -> existsb f l = existsb f l'.
Proof.
  induction 1 as [|x l l' _ IH|x y l|l l' l'' _ IH1 _ IH2]; simpl.
  - reflexivity.
  - rewrite IH. reflexivity.
  - destruct (f x), (f y); reflexivity.
  - rewrite IH1. exact IH2.
Qed.

(** X4. The verdict does not depend on the order of the detections: two
    responses whose first groups hold the same detections of the schema in
    another order get the same message and the same flag. *)
Theorem interpret_results_order (j j' : value) (dets dets' : list value) :
  first_results j dets ->
  first_results j' dets' ->
  Permutation dets dets' ->
  Forall (fun d => wf_detection d = true) dets ->
  exists message positive,
    interpret_results j = inr (message, PList dets, positive) /\
    interpret_results j' = inr (message, PList dets', positive).
Proof.
  intros Hj Hj' Hperm Hwf.
  assert (Hwf' : Forall (fun d => wf_detection d = true) dets').
  { rewrite Forall_forall in *. intros d Hin. apply Hwf.
    apply (Permutation_in d (Permutation_sym Hperm) Hin). }
  rewrite (interpret_results_wf j dets Hj)
    by (apply forallb_forall; apply Forall_forall; exact Hwf).
  rewrite (interpret_results_wf j' dets' Hj')
    by (apply forallb_forall; apply Forall_forall; exact Hwf').
  rewrite (existsb_Permutation _ dets dets' Hperm).
  destruct (existsb _ dets'); eauto.
Qed.

Lemma interpret_results_order_witness :
  exists message positive,
    interpret_results (response_of [detection "normal" 1 2 3 4;
                                    detection "Stone" 5 6 7 8]) =
      inr (message,
           PList [detection "normal" 1 2 3 4; detection "Stone" 5 6 7 8],
           positive) /\
    interpret_results (response_of [detection "Stone" 5 6 7 8;
                                    detection "normal" 1 2 3 4]) =
      inr (message,
           PList [detection "Stone" 5 6 7 8; detection "normal" 1 2 3 4],
           positive).
Proof.
  apply interpret_results_order.
  - eexists _, _, _. repeat split; reflexivity.
  - eexists _, _, _. repeat split; reflexivity.
  - apply perm_swap.
  - repeat constructor.
Defined.

End InterpreterMore.

Section InterpreterInversion.

Lemma classify_inv (results : value) (m : string) (d : value) (p : bool) :
  classify results = inr (m, d, p) ->
  d = results /\
  ((truthy results = false /\
    m = "Normal Kidney (no stones detected)" /\ p = false) \/
   (exists dets,
       results = PList dets /\
       py_any non_normal dets = inr p /\
       m = if p then "Kidney Stone Detected"
           else "Normal Kidney (no stones detected)")).
Proof.
  unfold classify. destruct (truthy results) eqn:Htruthy; simpl.
  2:{ intros [= <- <- <-]. split; [reflexivity|]. left. auto. }
  destruct results as [| | | |s|dets|kvs]; simpl; try discriminate.
  - destruct s as [|c s]; [discriminate|].
    rewrite py_any_chars. discriminate.
  - destruct (py_any non_normal dets) as [e|[|]] eqn:Hany; simpl;
      try discriminate; intros [= <- <- <-];
      (split; [reflexivity|]); right; exists dets; auto.
  - destruct kvs as [|kv kvs]; [discriminate|].
    rewrite py_any_keys. discriminate.
Qed.

Lemma interpret_results_inv (j : value) (v : verdict) :
  interpret_results j = inr v ->
  v = ("No prediction available", PList [], false) \/
  exists results, classify results = inr v.
Proof.
  destruct j as [| | | | | |kvs]; try discriminate.
  unfold interpret_results, get_default; simpl.
  destruct (truthy _) eqn:Htruthy; simpl.
  2:{ intros [= <-]. left. reflexivity. }
  destruct (index0 _) as [e|group]; simpl; [discriminate|].
  destruct group as [| | | | | |gkvs]; simpl; try discriminate.
  intros H. right.
  exists (match lookup "results" gkvs with Some v0 => v0 | None => PList [] end).
  exact H.
Qed.

(** X5. Whatever the input, a returned message is one of the three texts
    "No prediction available", "Normal Kidney (no stones detected)" and
    "Kidney Stone Detected". *)
Theorem interpret_results_messages (j : value) (m : string) (d : value)
        (p : bool) :
  interpret_results j = inr (m, d, p) -> In m verdict_messages.
Proof.
  intros H. apply interpret_results_inv in H as [[= -> _ _]|[results H]].
  - left. reflexivity.
  - apply classify_inv in H as [_ [(_ & -> & _)|(dets & _ & _ & ->)]].
    + right. left. reflexivity.
    + destruct p; simpl; auto.
Qed.

Lemma interpret_results_messages_witness :
  In "Kidney Stone Detected" verdict_messages.
Proof.
  apply (interpret_results_messages
           (response_of [detection "Stone" 10 10 50 50])
           "Kidney Stone Detected"
           (PList [detection "Stone" 10 10 50 50]) true).
  reflexivity.
Defined.

Lemma py_any_same_names (dets dets' : list value) :
  Forall2 (fun d d' => get d "name" = get d' "name") dets dets' ->
  py_any non_normal dets = py_any non_normal dets'.
Proof.
  induction 1 as [|d d' dets dets' Hname _ IH]; simpl; [reflexivity|].
  unfold non_normal at 1 3. rewrite Hname, IH. reflexivity.
Qed.

(** X6. The verdict reads nothing of a detection but its name: two first
    groups whose detections have, one by one, the same "name" get the same
    message and flag, or raise the same exception, whatever their boxes and
    confidences. *)
Theorem interpret_results_names_only (j j' : value)
        (dets dets' : list value) :
  first_results j dets ->
  first_results j' dets' ->
  Forall2 (fun d d' => get d "name" = get d' "name") dets dets' ->
  shown_verdict (interpret_results j) = shown_verdict (interpret_results j').
Proof.
  intros Hj Hj' Hnames.
  pose proof (py_any_same_names dets dets' Hnames) as Hany.
  destruct Hnames as [|d d' dets dets' Hname Hrest].
  - destruct Hj as (kvs & g & gs & -> & Himg & Hres).
    destruct Hj' as (kvs' & g' & gs' & -> & Himg' & Hres').
    unfold interpret_results, get_default; simpl.
    rewrite Himg, Himg'; simpl. rewrite Hres, Hres'. reflexivity.
  - rewrite (interpret_results_first j d dets Hj).
    rewrite (interpret_results_first j' d' dets' Hj').
    rewrite Hany.
    destruct (py_any non_normal (d' :: dets')) as [e|[|]]; reflexivity.
Qed.

Lemma interpret_results_names_only_witness :
  shown_verdict
    (interpret_results (response_of [detection "Stone" 10 10 50 50])) =
  shown_verdict
    (interpret_results
       (response_of [PDict [("name", PStr "Stone");
                            ("confidence", PFloat conf_threshold)]])).
Proof.
  apply (interpret_results_names_only _ _
           [detection "Stone" 10 10 50 50]
           [PDict [("name", PStr "Stone");
                   ("confidence", PFloat conf_threshold)]]).
  - eexists _, _, _. repeat split; reflexivity.
  - eexists _, _, _. repeat split; reflexivity.
  - repeat constructor.
Defined.

(** X7. A name that is neither text nor false in Python's sense, a number
    or a list say, has no [lower]: when the detections before it are all
    normal, [interpret_results] raises [AttributeError]. *)
Theorem interpret_results_bad_name (j : value) (before after : list value)
        (kvs : list (string * value)) :
  first_results j (before ++ PDict kvs :: after) ->
  Forall (fun d => in_normal_labels (lower (det_name d)) = true) before ->
  truthy (name_value kvs) = true ->
  is_text (name_value kvs) = false ->
  interpret_results j = inl AttributeError.
Proof.
  intros Hfirst Hnormal Htruthy Htext.
  assert (Hany : py_any non_normal (before ++ PDict kvs :: after) =
                 inl AttributeError).
  { rewrite py_any_prefix.
    - replace (existsb _ before) with false.
      + unfold non_normal, get, get_default; simpl.
        fold (name_value kvs). unfold py_or. rewrite Htruthy.
        destruct (name_value kvs); try reflexivity; discriminate.
      + symmetry. apply not_true_is_false. intros Hex.
        apply existsb_exists in Hex as (d & Hin & Hd).
        rewrite Forall_forall in Hnormal. rewrite (Hnormal d Hin) in Hd.
        discriminate.
    - apply forallb_forall. intros d Hin. apply normal_label_wf.
      rewrite Forall_forall in Hnormal. exact (Hnormal d Hin). }
  destruct (before ++ PDict kvs :: after)%list as [|d0 rest] eqn:Hlist.
  - destruct before; discriminate.
  - rewrite (interpret_results_first j d0 rest Hfirst), Hany. reflexivity.
Qed.

Lemma interpret_results_bad_name_witness :
  interpret_results (response_of ([detection "normal" 1 2 3 4] ++
                                  PDict [("name", PInt 5)] :: [])) =
  inl AttributeError.
Proof.
  apply (interpret_results_bad_name _ [detection "normal" 1 2 3 4] []
           [("name", PInt 5)]).
  - eexists _, _, _. repeat split; reflexivity.
  - repeat constructor.
  - reflexivity.
  - reflexivity.
Defined.

End InterpreterInversion.

(** ** Lower-casing and trimming *)

Section TextFacts.

Lemma is_space_lower_char (c : ascii) : is_space (lower_char c) = is_space c.
Proof.
  destruct c as [[] [] [] [] [] [] [] []]; reflexivity.
Qed.

Lemma lower_lstrip (s : string) : lower (lstrip s) = lstrip (lower s).
Proof.
  induction s as [|c s IH]; simpl; [reflexivity|].
  rewrite is_space_lower_char. destruct (is_space c); [exact IH|reflexivity].
Qed.

Lemma lower_rstrip (s : string) : lower (rstrip s) = rstrip (lower s).
Proof.
  induction s as [|c s IH]; simpl; [reflexivity|].
  rewrite <- IH, is_space_lower_char.
  destruct (rstrip s) as [|a r]; simpl.
  - destruct (is_space c); reflexivity.
  - reflexivity.
Qed.

Lemma lower_strip (s : string) : lower (strip s) = strip (lower s).
Proof.
  unfold strip. rewrite lower_rstrip, lower_lstrip. reflexivity.
Qed.

(** A label that passes the interpreter's test passes the renderer's. *)
Lemma normal_label_stripped (s : string) :
  in_normal_labels (lower s) = true ->
  in_normal_labels (lower (strip s)) = true.
Proof.
  intros H. rewrite lower_strip.
  unfold in_normal_labels, normal_labels in H. simpl in H.
  repeat (apply orb_prop in H as [H|H];
          [apply String.eqb_eq in H; rewrite H; reflexivity|]).
  discriminate.
Qed.

End TextFacts.

(** ** The box renderer *)

Section RendererMore.
Context {PIL : Imaging}.

(** X8. When the first group's "results" is [null] or another false value,
    [interpret_results] hands that value on and the renderer's [or []] takes
    it for the empty list: the outcome is the decoded image without a
    rectangle and the normal verdict. *)
Theorem analyze_falsy_results (image_bytes : list byte)
        (kvs group : list (string * value)) (groups : list value)
        (v : value) :
  lookup "images" kvs = Some (PList (PDict group :: groups)) ->
  lookup "results" group = Some v ->
  truthy v = false ->
  analyze image_bytes (PDict kvs) =
  (img <- open_rgb image_bytes ;;
   ret (img, "Normal Kidney (no stones detected)", false)).
Proof.
  intros Himg Hres Hfalsy. unfold analyze.
  rewrite (interpret_results_group kvs group groups Himg), Hres.
  unfold classify. rewrite Hfalsy. simpl.
  unfold draw_bounding_boxes, py_or. rewrite Hfalsy. simpl.
  destruct (open_rgb image_bytes); reflexivity.
Qed.

Lemma draw_calls_app (img : image) (l1 l2 : list rectangle_call) :
  draw_calls img (l1 ++ l2) = (img' <- draw_calls img l1 ;; draw_calls img' l2).
Proof.
  revert img. induction l1 as [|c l1 IH]; intros img; simpl; [reflexivity|].
  destruct (rectangle img c) as [e|img']; simpl; [reflexivity|]. apply IH.
Qed.

Lemma draw_detection_renderable (img : image) (det : value) :
  renderable det = true ->
  draw_detection img det =
  draw_calls img (match rectangle_of det with
                  | Some c => [c]
                  | None => []
                  end).
Proof.
  unfold renderable, rectangle_of.
  destruct (box_fields det) as [b|] eqn:Hbox; [|discriminate].
  rewrite (draw_detection_box img det b Hbox).
  destruct (missing_coordinate b); simpl; [reflexivity|].
  intros Hwf. unfold outline_of.
  destruct det as [| | | | | |kvs]; try discriminate.
  simpl in Hwf |- *. unfold get, get_default; simpl.
  destruct (lookup "name" kvs) as [[| | | |s| |]|]; try discriminate;
    simpl; try (symmetry; apply bind_ret_id).
  destruct s as [|c s]; simpl; symmetry; apply bind_ret_id.
Qed.

Lemma draw_each_renderable (img : image) (dets : list value) :
  Forall (fun d => renderable d = true) dets ->
  draw_each img dets = draw_calls img (expected_rectangles dets).
Proof.
  intros Hok. revert img.
  induction Hok as [|d dets Hd _ IH]; intros img; simpl; [reflexivity|].
  rewrite draw_calls_app, (draw_detection_renderable img d Hd).
  destruct (draw_calls img _) as [e|img']; simpl; [reflexivity|]. apply IH.
Qed.

(** X9. Over detections the renderer can handle, [draw_bounding_boxes] is
    the decoding followed by one [rectangle] call per detection with a
    complete box, in the order of the list; the others leave no call. *)
Theorem draw_bounding_boxes_expected (image_bytes : list byte)
        (dets : list value) :
  Forall (fun d => renderable d = true) dets ->
  draw_bounding_boxes image_bytes (PList dets) =
  (img <- open_rgb image_bytes ;; draw_calls img (expected_rectangles dets)).
Proof.
  intros Hok. rewrite draw_bounding_boxes_list.
  destruct (open_rgb image_bytes) as [e|img]; simpl; [reflexivity|].
  apply draw_each_renderable. exact Hok.
Qed.

(** What one turn of the loop can do when it does not raise: nothing, or
    one [rectangle] call with four coordinates that are not [None], no fill,
    width 3 and the outline of the trimmed, lower-cased label. *)
Lemma draw_detection_inv (img img' : image) (det : value) :
  draw_detection img det = inr img' ->
  img' = img \/
  exists name label c,
    get det "name" = inr name /\
    call_strip (py_or name (PStr "object")) = inr label /\
    rectangle img c = inr img' /\
    List.length (xy c) = 4%nat /\
    Forall (fun x => is_none x = false) (xy c) /\
    fill c = None /\ width c = 3 /\
    outline c = Some (if in_normal_labels (lower label)
                      then "green" else "red").
Proof.
  unfold draw_detection.
  destruct (get det "box") as [e|box0]; simpl; [discriminate|].
  destruct (get (py_or box0 (PDict [])) "x1") as [e|x1]; simpl;
    [discriminate|].
  destruct (get (py_or box0 (PDict [])) "x2") as [e|x2]; simpl;
    [discriminate|].
  destruct (get (py_or box0 (PDict [])) "y1") as [e|y1]; simpl;
    [discriminate|].
  destruct (get (py_or box0 (PDict [])) "y2") as [e|y2]; simpl;
    [discriminate|].
  destruct (is_none x1) eqn:H1; simpl; [intros [= <-]; auto|].
  destruct (is_none x2) eqn:H2; simpl; [intros [= <-]; auto|].
  destruct (is_none y1) eqn:H3; simpl; [intros [= <-]; auto|].
  destruct (is_none y2) eqn:H4; simpl; [intros [= <-]; auto|].
  destruct (get det "name") as [e|name]; simpl; [discriminate|].
  destruct (call_strip _) as [e|label] eqn:Hstrip; simpl; [discriminate|].
  destruct (get det "confidence") as [e|confidence]; simpl; [discriminate|].
  intros Hrect. right. eexists name, label, _.
  repeat split; try exact Hrect; try reflexivity; try exact Hstrip.
  simpl. repeat constructor; assumption.
Qed.

End RendererMore.

Lemma analyze_falsy_results_witness :
  @analyze LogImaging [x00]
    (PDict [("images", PList [PDict [("results", PNone)]])]) =
  (img <- @open_rgb LogImaging [x00] ;;
   ret (img, "Normal Kidney (no stones detected)", false)).
Proof.
  apply (@analyze_falsy_results LogImaging [x00] _ [("results", PNone)]
           [] PNone); reflexivity.
Defined.

Lemma draw_bounding_boxes_expected_witness :
  @draw_bounding_boxes LogImaging [x00]
    (PList [detection "Stone" 10 10 50 50; PDict [("name", PInt 5)];
            detection "Normal " 1 2 3 4]) =
  (img <- @open_rgb LogImaging [x00] ;;
   @draw_calls LogImaging img
     (expected_rectangles
        [detection "Stone" 10 10 50 50; PDict [("name", PInt 5)];
         detection "Normal " 1 2 3 4])).
Proof.
  apply (@draw_bounding_boxes_expected LogImaging).
  repeat constructor.
Defined.

(** On the logging image the three detections above leave two rectangles,
    red then green. *)
Example expected_rectangles_example :
  map outline
      (expected_rectangles
         [detection "Stone" 10 10 50 50; PDict [("name", PInt 5)];
          detection "Normal " 1 2 3 4]) =
  [Some "red"; Some "green"].
Proof. reflexivity. Qed.

(** ** The renderer on the logging image *)

Section RendererLog.

Lemma draw_detection_log (img img' : log_image) (det : value) :
  @draw_detection LogImaging img det = inr img' ->
  img' = img \/
  exists name label c,
    get det "name" = inr name /\
    call_strip (py_or name (PStr "object")) = inr label /\
    img' = {| source := source img; drawn := drawn img ++ [c] |} /\
    outline c = Some (if in_normal_labels (lower label)
                      then "green" else "red") /\
    renderer_call c.
Proof.
  intros H. apply (@draw_detection_inv LogImaging) in H.
  destruct H as [H|(name & label & c & Hname & Hlabel & Hrect & Hlen & Hxy &
                    Hfill & Hwidth & Hout)]; [left; exact H|].
  right. exists name, label, c. simpl in Hrect. injection Hrect as <-.
  repeat split; try assumption.
  rewrite Hout. destruct (in_normal_labels (lower label)); auto.
Qed.

Lemma draw_each_log (dets : list value) (img img' : log_image) :
  @draw_each LogImaging img dets = inr img' ->
  source img' = source img /\
  exists added,
    drawn img' = (drawn img ++ added)%list /\
    (List.length added <= List.length dets)%nat /\
    Forall renderer_call added.
Proof.
  revert img. induction dets as [|d dets IH]; intros img; simpl.
  - intros [= <-]. split; [reflexivity|]. exists [].
    rewrite app_nil_r. repeat split; constructor.
  - destruct (@draw_detection LogImaging img d) as [e|img1] eqn:Hd; simpl;
      [discriminate|].
    intros Hrest. apply IH in Hrest as (Hsrc & added & Hdrawn & Hlen & Hok).
    apply draw_detection_log in Hd
      as [->|(name & label & c & _ & _ & -> & _ & Hc)].
    + split; [exact Hsrc|]. exists added. repeat split; auto.
    + simpl in Hsrc, Hdrawn. split; [exact Hsrc|].
      exists (c :: added). rewrite Hdrawn, <- app_assoc. simpl.
      repeat split; [lia|]. constructor; assumption.
Qed.

(** The items of a text or of an object are texts: the first turn of the
    loop raises. *)
Lemma draw_each_chars (img : log_image) (c : ascii) (s : string) :
  @draw_each LogImaging img (chars (String c s)) = inl AttributeError.
Proof. reflexivity. Qed.

Lemma draw_each_keys (img : log_image) (kv : string * value)
      (kvs : list (string * value)) :
  @draw_each LogImaging img (map (fun kv => PStr (fst kv)) (kv :: kvs)) =
  inl AttributeError.
Proof. reflexivity. Qed.

Lemma draw_bounding_boxes_log (image_bytes : list byte) (detections : value)
      (img : log_image) :
  @draw_bounding_boxes LogImaging image_bytes detections = inr img ->
  exists dets,
    (detections = PList dets \/ (truthy detections = false /\ dets = [])) /\
    @draw_each LogImaging {| source := image_bytes; drawn := [] |} dets =
    inr img.
Proof.
  unfold draw_bounding_boxes, py_or; simpl.
  destruct (truthy detections) eqn:Htruthy; simpl.
  - destruct detections as [| | | |s|dets|kvs]; simpl; try discriminate.
    + destruct s as [|c s]; [discriminate|].
      rewrite draw_each_chars. discriminate.
    + intros H. exists dets. auto.
    + destruct kvs as [|kv kvs]; [discriminate|].
      rewrite draw_each_keys. discriminate.
  - intros H. exists []. auto.
Qed.

(** X10. Whenever the renderer returns, whatever the detections, the image
    still holds the bytes it was given, it has at most one rectangle per
    detection, and every rectangle has four coordinates that are not
    [None], no fill, width 3 and a green or red outline. *)
Theorem draw_bounding_boxes_invariants (image_bytes : list byte)
        (detections : value) (img : log_image) :
  @draw_bounding_boxes LogImaging image_bytes detections = inr img ->
  source img = image_bytes /\
  (List.length (drawn img) <= detection_count detections)%nat /\
  Forall renderer_call (drawn img).
Proof.
  intros H. apply draw_bounding_boxes_log in H as (dets & Hdets & H).
  apply draw_each_log in H as (Hsrc & added & Hdrawn & Hlen & Hok).
  simpl in Hsrc, Hdrawn. rewrite Hdrawn. split; [exact Hsrc|].
  split; [|exact Hok].
  destruct Hdets as [->|[_ ->]]; simpl in *; [exact Hlen|].
  destruct added; simpl in *; lia.
Qed.

Lemma draw_bounding_boxes_invariants_witness :
  source {| source := [x00];
            drawn := [{| xy := [PInt 10; PInt 10; PInt 50; PInt 50];
                         fill := None; outline := Some "red";
                         width := 3 |}] |} = [x00] /\
  (List.length
     (drawn {| source := [x00];
               drawn := [{| xy := [PInt 10; PInt 10; PInt 50; PInt 50];
                            fill := None; outline := Some "red";
                            width := 3 |}] |}) <=
   detection_count (PList [detection "Stone" 10 10 50 50; PDict []]))%nat /\
  Forall renderer_call
    (drawn {| source := [x00];
              drawn := [{| xy := [PInt 10; PInt 10; PInt 50; PInt 50];
                           fill := None; outline := Some "red";
                           width := 3 |}] |}).
Proof.
  apply (draw_bounding_boxes_invariants [x00]
           (PList [detection "Stone" 10 10 50 50; PDict []])).
  reflexivity.
Defined.

Lemma py_any_false (f : value -> result bool) (dets : list value) :
  py_any f dets = inr false -> Forall (fun d => f d = inr false) dets.
Proof.
  induction dets as [|d dets IH]; simpl; [constructor|].
  destruct (f d) as [e|[|]] eqn:Hd; simpl; try discriminate.
  intros H. constructor; [exact Hd|exact (IH H)].
Qed.

Lemma non_normal_false_label (det name : value) :
  get det "name" = inr name ->
  non_normal det = inr false ->
  exists s, name = PStr s /\ truthy name = true /\
            in_normal_labels (lower s) = true.
Proof.
  intros Hname. unfold non_normal. rewrite Hname; simpl.
  unfold py_or. destruct (truthy name) eqn:Htruthy.
  - destruct name as [| | | |s| |]; simpl; try discriminate.
    intros [= H]. exists s. repeat split.
    apply negb_false_iff. exact H.
  - simpl. discriminate.
Qed.

Lemma draw_each_green (dets : list value) (img img' : log_image) :
  Forall (fun d => non_normal d = inr false) dets ->
  @draw_each LogImaging img dets = inr img' ->
  exists added,
    drawn img' = (drawn img ++ added)%list /\
    Forall (fun c => outline c = Some "green") added.
Proof.
  intros Hnormal. revert img.
  induction Hnormal as [|d dets Hd _ IH]; intros img; simpl.
  - intros [= <-]. exists []. rewrite app_nil_r. split; constructor.
  - destruct (@draw_detection LogImaging img d) as [e|img1] eqn:Hdraw; simpl;
      [discriminate|].
    intros Hrest. apply IH in Hrest as (added & Hdrawn & Hgreen).
    apply draw_detection_log in Hdraw
      as [->|(name & label & c & Hname & Hlabel & -> & Hout & _)].
    + exists added. auto.
    + destruct (non_normal_false_label d name Hname Hd)
        as (s & -> & Htruthy & Hin).
      unfold py_or in Hlabel. rewrite Htruthy in Hlabel. simpl in Hlabel.
      injection Hlabel as <-.
      rewrite (normal_label_stripped s Hin) in Hout.
      exists (c :: added). simpl in Hdrawn. rewrite Hdrawn, <- app_assoc.
      split; [reflexivity|]. constructor; assumption.
Qed.

(** X11. The verdict and the colours agree in one direction: when
    [interpret_results] returns a false flag and the renderer, given the
    detections it returned, returns too, every rectangle is green, so a red
    rectangle comes only with the positive verdict. *)
Theorem negative_verdict_all_green (j : value) (message : string)
        (detections : value) (image_bytes : list byte) (img : log_image) :
  interpret_results j = inr (message, detections, false) ->
  @draw_bounding_boxes LogImaging image_bytes detections = inr img ->
  Forall (fun c => outline c = Some "green") (drawn img).
Proof.
  intros Hverdict Hdraw.
  apply draw_bounding_boxes_log in Hdraw as (dets & Hdets & Hdraw).
  assert (Hnormal : Forall (fun d => non_normal d = inr false) dets).
  { destruct Hdets as [->|[_ ->]]; [|constructor].
    apply interpret_results_inv in Hverdict as [[= _ ->]|[results H]];
      [constructor|].
    apply classify_inv in H as [<- [(Hfalsy & _)|(ds & [= ->] & Hany & _)]].
    - destruct dets; [constructor|discriminate].
    - exact (py_any_false _ _ Hany). }
  apply (draw_each_green dets _ _ Hnormal) in Hdraw as (added & -> & Hgreen).
  exact Hgreen.
Qed.

Lemma negative_verdict_all_green_witness :
  Forall (fun c => outline c = Some "green")
    (drawn {| source := [x00];
              drawn := [{| xy := [PInt 1; PInt 2; PInt 3; PInt 4];
                           fill := None; outline := Some "green";
                           width := 3 |}] |}).
Proof.
  apply (negative_verdict_all_green
           (response_of [detection "Normal" 1 2 3 4])
           "Normal Kidney (no stones detected)"
           (PList [detection "Normal" 1 2 3 4]) [x00]);
    reflexivity.
Defined.

End RendererLog.

Section RendererErrors.
Context {PIL : Imaging}.

(** X12. A box that is neither an object nor false in Python's sense, a
    list of four numbers say, has no [get]: once the image is decoded and the
    detections before it are rendered, the renderer raises
    [AttributeError] and returns no image. *)
Theorem draw_bounding_boxes_bad_box (image_bytes : list byte)
        (before after : list value) (kvs : list (string * value))
        (img : image) :
  draw_bounding_boxes image_bytes (PList before) = inr img ->
  truthy (box_value kvs) = true ->
  is_object (box_value kvs) = false ->
  draw_bounding_boxes image_bytes (PList (before ++ PDict kvs :: after)) =
  inl AttributeError.
Proof.
  intros Hbefore Htruthy Hobject.
  rewrite draw_bounding_boxes_list in *.
  destruct (open_rgb image_bytes) as [e|img0]; simpl in *; [discriminate|].
  rewrite draw_each_app, Hbefore. simpl.
  unfold draw_detection, get at 1, get_default; simpl.
  fold (box_value kvs). unfold py_or. rewrite Htruthy.
  destruct (box_value kvs); try reflexivity; discriminate.
Qed.

End RendererErrors.

Lemma draw_bounding_boxes_bad_box_witness :
  @draw_bounding_boxes LogImaging [x00]
    (PList ([detection "Stone" 10 10 50 50] ++
            PDict [("name", PStr "Stone");
                   ("box", PList [PInt 1; PInt 2; PInt 3; PInt 4])] ::
            [detection "normal" 1 2 3 4])) =
  inl AttributeError.
Proof.
  apply (@draw_bounding_boxes_bad_box LogImaging [x00]
           [detection "Stone" 10 10 50 50] [detection "normal" 1 2 3 4]
           [("name", PStr "Stone");
            ("box", PList [PInt 1; PInt 2; PInt 3; PInt 4])]
           {| source := [x00];
              drawn := [{| xy := [PInt 10; PInt 10; PInt 50; PInt 50];
                           fill := None; outline := Some "red";
                           width := 3 |}] |});
    reflexivity.
Defined.

(** ** The remote inference call *)

Section InvokerMore.
Context {remote : Transport}.

(** X13. With a key the function sends one request and no more, whatever
    the endpoint does: a POST to [API_URL] with the key in "x-api-key", the
    model and the three inference parameters, the image bytes as they came
    under the name "upload.jpg" and the type "image/jpeg", and a timeout of
    60 seconds. *)
Theorem call_ultralytics_api_request (api_key : value)
        (image_bytes : list byte) (sent : list request) :
  truthy api_key = true ->
  snd (call_ultralytics_api api_key image_bytes sent) =
  (sent ++ [upload_request api_key image_bytes])%list.
Proof.
  intros Hkey. unfold call_ultralytics_api. rewrite Hkey; simpl.
  unfold net_bind, requests_post. fold (upload_request api_key image_bytes).
  destruct (post _) as [f|resp]; simpl; [reflexivity|].
  unfold raise_for_status.
  destruct ((400 <=? status_code resp) && (status_code resp <? 600)); simpl;
    [reflexivity|].
  unfold response_json. destruct (json resp); reflexivity.
Qed.

(** X14. A reply whose status is from 400 to 599 raises [HTTPError] with
    that status, and the body is not read. *)
Theorem call_ultralytics_api_error_status (api_key : value)
        (image_bytes : list byte) (sent : list request) (resp : response) :
  truthy api_key = true ->
  post (upload_request api_key image_bytes) = inr resp ->
  400 <= status_code resp < 600 ->
  fst (call_ultralytics_api api_key image_bytes sent) =
  inl (RequestException (HTTPError (status_code resp))).
Proof.
  intros Hkey Hpost Hstatus. unfold call_ultralytics_api. rewrite Hkey; simpl.
  unfold net_bind, requests_post. fold (upload_request api_key image_bytes).
  rewrite Hpost; simpl. unfold raise_for_status.
  replace ((400 <=? status_code resp) && (status_code resp <? 600))
    with true; [reflexivity|].
  symmetry. apply andb_true_intro. split; [apply Z.leb_le|apply Z.ltb_lt]; lia.
Qed.

(** X15. A reply with any other status is not checked further: the
    function returns the parsed body, or raises what [response.json()]
    raises. *)
Theorem call_ultralytics_api_body (api_key : value)
        (image_bytes : list byte) (sent : list request) (resp : response) :
  truthy api_key = true ->
  post (upload_request api_key image_bytes) = inr resp ->
  status_code resp < 400 \/ 600 <= status_code resp ->
  fst (call_ultralytics_api api_key image_bytes sent) =
  match json resp with
  | inl f => inl (RequestException f)
  | inr v => inr v
  end.
Proof.
  intros Hkey Hpost Hstatus. unfold call_ultralytics_api. rewrite Hkey; simpl.
  unfold net_bind, requests_post. fold (upload_request api_key image_bytes).
  rewrite Hpost; simpl. unfold raise_for_status.
  replace ((400 <=? status_code resp) && (status_code resp <? 600))
    with false.
  - simpl. unfold response_json. destruct (json resp); reflexivity.
  - symmetry. apply andb_false_iff.
    destruct Hstatus; [left; apply Z.leb_gt|right; apply Z.ltb_ge]; lia.
Qed.

End InvokerMore.

Lemma call_ultralytics_api_request_witness :
  snd (@call_ultralytics_api unreachable (API_KEY []) [x00] []) =
  ([] ++ [upload_request (API_KEY []) [x00]])%list.
Proof.
  apply (@call_ultralytics_api_request unreachable). reflexivity.
Defined.

Lemma call_ultralytics_api_error_status_witness :
  fst (@call_ultralytics_api (answering 503 (response_of []))
         (API_KEY []) [x00] []) =
  inl (RequestException (HTTPError 503)).
Proof.
  apply (@call_ultralytics_api_error_status (answering 503 (response_of []))
           (API_KEY []) [x00] []
           {| status_code := 503; json := inr (response_of []) |}).
  - reflexivity.
  - reflexivity.
  - simpl. lia.
Defined.

Lemma call_ultralytics_api_body_witness :
  fst (@call_ultralytics_api (answering 200 (response_of []))
         (API_KEY []) [x00] []) =
  inr (response_of []).
Proof.
  apply (@call_ultralytics_api_body (answering 200 (response_of []))
           (API_KEY []) [x00] []
           {| status_code := 200; json := inr (response_of []) |}).
  - reflexivity.
  - reflexivity.
  - left. simpl. lia.
Defined.

(** ** The key *)

Section KeyFacts.

(** X16. The key of line 11 is empty only when the environment sets
    ULTRALYTICS_API_KEY to the empty text: in every other environment the
    missing-key error of line 17 cannot happen. *)
Theorem API_KEY_missing_only_if_empty (environ : list (string * string)) :
  truthy (API_KEY environ) = false ->
  In ("ULTRALYTICS_API_KEY", "") environ.
Proof.
  unfold API_KEY. induction environ as [|[k v] environ IH]; simpl.
  - discriminate.
  - destruct (k =? "ULTRALYTICS_API_KEY")%string eqn:Hk.
    + apply String.eqb_eq in Hk as ->.
      destruct v as [|c v]; [auto|discriminate].
    + intros H. right. exact (IH H).
Qed.

Lemma API_KEY_missing_only_if_empty_witness :
  In ("ULTRALYTICS_API_KEY", "")
     [("HOME", "/root"); ("ULTRALYTICS_API_KEY", "")].
Proof.
  apply API_KEY_missing_only_if_empty. reflexivity.
Defined.

(** X17. When the environment does not set ULTRALYTICS_API_KEY the key is
    the literal of line 11. *)
Theorem API_KEY_fallback (environ : list (string * string)) :
  (forall v, ~ In ("ULTRALYTICS_API_KEY", v) environ) ->
  API_KEY environ = PStr DEFAULT_API_KEY.
Proof.
  unfold API_KEY. induction environ as [|[k v] environ IH]; simpl;
    [reflexivity|].
  intros Hunset. destruct (k =? "ULTRALYTICS_API_KEY")%string eqn:Hk.
  - apply String.eqb_eq in Hk as ->. exfalso. apply (Hunset v). left.
    reflexivity.
  - apply IH. intros v' Hin. apply (Hunset v'). right. exact Hin.
Qed.

Lemma API_KEY_fallback_witness :
  API_KEY [("HOME", "/root")] = PStr DEFAULT_API_KEY.
Proof.
  apply API_KEY_fallback.
  intros v [H|[]]. discriminate H.
Defined.

End KeyFacts.

(** ** The page *)

Section PageFacts.
Context {PIL : Imaging} {remote : Transport}.

(** The whole of [call_ultralytics_api] in one equation. *)
Lemma call_ultralytics_api_run (api_key : value) (image_bytes : list byte)
      (sent : list request) :
  call_ultralytics_api api_key image_bytes sent =
  if truthy api_key then
    (match post (upload_request api_key image_bytes) with
     | inl f => inl (RequestException f)
     | inr resp =>
         if (400 <=? status_code resp) && (status_code resp <? 600)
         then inl (RequestException (HTTPError (status_code resp)))
         else match json resp with
              | inl f => inl (RequestException f)
              | inr v => inr v
              end
     end,
     (sent ++ [upload_request api_key image_bytes])%list)
  else (inl (RuntimeError missing_key_message), sent).
Proof.
  unfold call_ultralytics_api.
  destruct (truthy api_key); simpl; [|reflexivity].
  unfold net_bind, requests_post. fold (upload_request api_key image_bytes).
  destruct (post _) as [f|resp]; simpl; [reflexivity|].
  unfold raise_for_status.
  destruct ((400 <=? status_code resp) && (status_code resp <? 600)); simpl;
    [reflexivity|].
  unfold response_json. destruct (json resp); reflexivity.
Qed.

(** The body of [try]: the requests are those of the call, and the events
    are those of the image, the banner and the raw output. *)
Lemma show_analysis_run (api_key : value) (image_bytes : list byte)
      (sent : list request) :
  show_analysis api_key image_bytes sent =
  (match fst (call_ultralytics_api api_key image_bytes sent) with
   | inl e => inl e
   | inr result_json =>
       match analyze image_bytes result_json with
       | inl e => inl e
       | inr (img, message, positive) =>
           inr (analysis_events img message positive result_json)
       end
   end,
   snd (call_ultralytics_api api_key image_bytes sent)).
Proof.
  unfold show_analysis, net_bind, lift.
  destruct (call_ultralytics_api api_key image_bytes sent) as [[e|j] sent'];
    simpl; [reflexivity|].
  destruct (analyze image_bytes j) as [e|[[img message] positive]];
    reflexivity.
Qed.

Lemma main_run (api_key : value) (s : session) (image_bytes : list byte)
      (sent : list request) :
  agree s = true ->
  uploaded_file s = Some image_bytes ->
  main api_key s sent =
  (match fst (show_analysis api_key image_bytes sent) with
   | inr shown => (upload_page ++ spinner :: shown)%list
   | inl e => (upload_page ++ [spinner; ErrorProcessing e])%list
   end,
   snd (show_analysis api_key image_bytes sent)).
Proof.
  intros Hagree Hfile. unfold main. rewrite Hagree, Hfile; simpl.
  destruct (show_analysis api_key image_bytes sent) as [[e|shown] sent'];
    reflexivity.
Qed.

(** X18. One run of the page sends at most one request, and sends it
    exactly when the policy is agreed to, a file is in the uploader and a key
    is set; the request is then the upload of that file's bytes. *)
Theorem main_requests (api_key : value) (s : session)
        (sent : list request) :
  snd (main api_key s sent) =
  match uploaded_file s with
  | Some image_bytes =>
      if agree s && truthy api_key
      then (sent ++ [upload_request api_key image_bytes])%list
      else sent
  | None => sent
  end.
Proof.
  destruct (agree s) eqn:Hagree.
  2:{ unfold main. rewrite Hagree. destruct (uploaded_file s); reflexivity. }
  destruct (uploaded_file s) as [image_bytes|] eqn:Hfile.
  2:{ unfold main. rewrite Hagree, Hfile. reflexivity. }
  rewrite (main_run api_key s image_bytes sent Hagree Hfile).
  rewrite show_analysis_run, call_ultralytics_api_run. simpl.
  destruct (truthy api_key); reflexivity.
Qed.

Lemma analyze_inv (image_bytes : list byte) (j : value) (img : image)
      (message : string) (positive : bool) :
  analyze image_bytes j = inr (img, message, positive) ->
  exists detections,
    interpret_results j = inr (message, detections, positive) /\
    draw_bounding_boxes image_bytes detections = inr img.
Proof.
  unfold analyze.
  destruct (interpret_results j) as [e|[[m d] p]]; simpl; [discriminate|].
  destruct (draw_bounding_boxes image_bytes d) as [e|img'] eqn:Hdraw; simpl;
    [discriminate|].
  intros [= <- <- <-]. exists d. split; [reflexivity|exact Hdraw].
Qed.

(** X19. After the upload the page ends in one of two ways and nothing in
    between: the spinner and one error banner carrying the exception of the
    call or of the analysis, or the spinner, the annotated image, one
    banner with the verdict and the raw output of the call. *)
Theorem main_outcome (api_key : value) (s : session)
        (image_bytes : list byte) (sent : list request) :
  agree s = true ->
  uploaded_file s = Some image_bytes ->
  (exists e,
      fst (main api_key s sent) =
        (upload_page ++ [spinner; ErrorProcessing e])%list /\
      (fst (call_ultralytics_api api_key image_bytes sent) = inl e \/
       exists j,
         fst (call_ultralytics_api api_key image_bytes sent) = inr j /\
         analyze image_bytes j = inl e)) \/
  (exists j img message positive,
      fst (call_ultralytics_api api_key image_bytes sent) = inr j /\
      analyze image_bytes j = inr (img, message, positive) /\
      fst (main api_key s sent) =
        (upload_page ++ spinner :: analysis_events img message positive j)%list).
Proof.
  intros Hagree Hfile.
  rewrite (main_run api_key s image_bytes sent Hagree Hfile).
  rewrite show_analysis_run. simpl.
  destruct (fst (call_ultralytics_api api_key image_bytes sent)) as [e|j].
  - left. exists e. auto.
  - destruct (analyze image_bytes j) as [e|[[img message] positive]] eqn:Ha.
    + left. exists e. split; [reflexivity|]. right. exists j. auto.
    + right. exists j, img, message, positive. auto.
Qed.

Lemma interpret_results_flag (j : value) (m : string) (d : value)
      (p : bool) :
  interpret_results j = inr (m, d, p) ->
  (p = true <-> m = "Kidney Stone Detected").
Proof.
  intros H. apply interpret_results_inv in H as [[= -> _ ->]|[results H]].
  - split; discriminate.
  - apply classify_inv in H as [_ [(_ & -> & ->)|(dets & _ & _ & ->)]].
    + split; discriminate.
    + destruct p; split; try reflexivity; discriminate.
Qed.

(** X20. The banners follow the verdict: a red [st.error] banner that
    carries a message carries "Kidney Stone Detected", and a green
    [st.success] banner never does. *)
Theorem main_banners (api_key : value) (s : session) (sent : list request)
        (m : string) :
  (In (ErrorMessage m) (fst (main api_key s sent)) ->
   m = "Kidney Stone Detected") /\
  (In (SuccessMessage m) (fst (main api_key s sent)) ->
   m <> "Kidney Stone Detected").
Proof.
  destruct (agree s) eqn:Hagree.
  2:{ unfold main. rewrite Hagree. simpl.
      split; intros H; repeat (destruct H as [H|H]; try discriminate H);
        destruct H. }
  destruct (uploaded_file s) as [image_bytes|] eqn:Hfile.
  2:{ unfold main. rewrite Hagree, Hfile. simpl.
      split; intros H; repeat (destruct H as [H|H]; try discriminate H);
        destruct H. }
  rewrite (main_run api_key s image_bytes sent Hagree Hfile).
  rewrite show_analysis_run. simpl.
  destruct (fst (call_ultralytics_api api_key image_bytes sent)) as [e|j].
  { split; intros H; repeat (destruct H as [H|H]; try discriminate H);
      destruct H. }
  destruct (analyze image_bytes j) as [e|[[img message] positive]] eqn:Ha.
  { split; intros H; repeat (destruct H as [H|H]; try discriminate H);
      destruct H. }
  apply analyze_inv in Ha as (d & Hverdict & _).
  apply interpret_results_flag in Hverdict.
  split; intros H; simpl in H;
    repeat (destruct H as [H|H]; try discriminate H); try contradiction.
  - destruct positive; [|discriminate H]. injection H as <-.
    apply Hverdict. reflexivity.
  - destruct positive; [discriminate H|]. injection H as <-.
    intros Hm. apply Hverdict in Hm. discriminate.
Qed.

(** X21. With the policy agreed to, a file uploaded and no key, the page
    shows the spinner and one error banner carrying the missing-key
    [RuntimeError]; nothing is sent. *)
Theorem main_missing_key (api_key : value) (s : session)
        (image_bytes : list byte) (sent : list request) :
  agree s = true ->
  uploaded_file s = Some image_bytes ->
  truthy api_key = false ->
  main api_key s sent =
  ((upload_page ++
    [spinner; ErrorProcessing (RuntimeError missing_key_message)])%list,
   sent).
Proof.
  intros Hagree Hfile Hkey.
  rewrite (main_run api_key s image_bytes sent Hagree Hfile).
  rewrite show_analysis_run, call_ultralytics_api_run, Hkey. reflexivity.
Qed.

(** X22. When the endpoint answers with a status from 400 to 599 the page
    shows the spinner and one error banner carrying the [HTTPError] of that
    status: no image, no verdict, no raw output. *)
Theorem main_error_status (api_key : value) (s : session)
        (image_bytes : list byte) (sent : list request) (resp : response) :
  agree s = true ->
  uploaded_file s = Some image_bytes ->
  truthy api_key = true ->
  post (upload_request api_key image_bytes) = inr resp ->
  400 <= status_code resp < 600 ->
  main api_key s sent =
  ((upload_page ++
    [spinner;
     ErrorProcessing (RequestException (HTTPError (status_code resp)))])%list,
   (sent ++ [upload_request api_key image_bytes])%list).
Proof.
  intros Hagree Hfile Hkey Hpost Hstatus.
  rewrite (main_run api_key s image_bytes sent Hagree Hfile).
  rewrite show_analysis_run, call_ultralytics_api_run, Hkey, Hpost.
  replace ((400 <=? status_code resp) && (status_code resp <? 600))
    with true; [reflexivity|].
  symmetry. apply andb_true_intro. split; [apply Z.leb_le|apply Z.ltb_lt]; lia.
Qed.

(** X23. The image is decoded after the call and the verdict: when the
    uploaded bytes cannot be decoded the request has been sent all the same,
    and the page shows the decoding error in place of the verdict that was
    computed. *)
Theorem main_undecodable (api_key : value) (s : session)
        (image_bytes : list byte) (sent : list request) (j : value)
        (v : verdict) (e : exn) :
  agree s = true ->
  uploaded_file s = Some image_bytes ->
  call_ultralytics_api api_key image_bytes sent =
    (inr j, (sent ++ [upload_request api_key image_bytes])%list) ->
  interpret_results j = inr v ->
  open_rgb image_bytes = inl e ->
  main api_key s sent =
  ((upload_page ++ [spinner; ErrorProcessing e])%list,
   (sent ++ [upload_request api_key image_bytes])%list).
Proof.
  intros Hagree Hfile Hcall Hverdict Hopen.
  rewrite (main_run api_key s image_bytes sent Hagree Hfile).
  rewrite show_analysis_run, Hcall. simpl.
  unfold analyze. rewrite Hverdict. destruct v as [[m d] p]. simpl.
  unfold draw_bounding_boxes. rewrite Hopen. reflexivity.
Qed.

End PageFacts.

Lemma main_outcome_witness :
  (exists e,
      fst (@main LogImaging (answering 200 (response_of []))
             (API_KEY []) (upload_of [x00]) []) =
        (upload_page ++ [spinner; ErrorProcessing e])%list /\
      (fst (@call_ultralytics_api (answering 200 (response_of []))
              (API_KEY []) [x00] []) = inl e \/
       exists j,
         fst (@call_ultralytics_api (answering 200 (response_of []))
                (API_KEY []) [x00] []) = inr j /\
         @analyze LogImaging [x00] j = inl e)) \/
  (exists j img message positive,
      fst (@call_ultralytics_api (answering 200 (response_of []))
             (API_KEY []) [x00] []) = inr j /\
      @analyze LogImaging [x00] j = inr (img, message, positive) /\
      fst (@main LogImaging (answering 200 (response_of []))
             (API_KEY []) (upload_of [x00]) []) =
        (upload_page ++ spinner :: analysis_events img message positive j)%list).
Proof.
  apply (@main_outcome LogImaging (answering 200 (response_of []))
           (API_KEY []) (upload_of [x00]) [x00] []); reflexivity.
Defined.

Lemma main_banners_witness :
  In (ErrorMessage "Kidney Stone Detected")
     (fst (@main LogImaging
             (answering 200 (response_of [detection "Stone" 1 2 3 4]))
             (API_KEY []) (upload_of [x00]) [])) /\
  "Kidney Stone Detected" = "Kidney Stone Detected".
Proof.
  assert (H : In (ErrorMessage "Kidney Stone Detected")
                (fst (@main LogImaging
                        (answering 200
                           (response_of [detection "Stone" 1 2 3 4]))
                        (API_KEY []) (upload_of [x00]) []))).
  { simpl. tauto. }
  split; [exact H|].
  exact (proj1 (@main_banners LogImaging
                  (answering 200 (response_of [detection "Stone" 1 2 3 4]))
                  (API_KEY []) (upload_of [x00]) []
                  "Kidney Stone Detected") H).
Defined.

Lemma main_missing_key_witness :
  @main LogImaging unreachable (API_KEY [("ULTRALYTICS_API_KEY", "")])
    (upload_of [x00]) [] =
  ((upload_page ++
    [spinner; ErrorProcessing (RuntimeError missing_key_message)])%list,
   []).
Proof.
  apply (@main_missing_key LogImaging unreachable
           (API_KEY [("ULTRALYTICS_API_KEY", "")]) (upload_of [x00]) [x00] []);
    reflexivity.
Defined.

Lemma main_error_status_witness :
  @main LogImaging (answering 500 PNone) (API_KEY []) (upload_of [x00]) [] =
  ((upload_page ++
    [spinner; ErrorProcessing (RequestException (HTTPError 500))])%list,
   ([] ++ [upload_request (API_KEY []) [x00]])%list).
Proof.
  apply (@main_error_status LogImaging (answering 500 PNone)
           (API_KEY []) (upload_of [x00]) [x00] []
           {| status_code := 500; json := inr PNone |}).
  - reflexivity.
  - reflexivity.
  - reflexivity.
  - reflexivity.
  - simpl. lia.
Defined.

Lemma main_undecodable_witness :
  @main Undecodable (answering 200 (response_of []))
    (API_KEY []) (upload_of [x00]) [] =
  ((upload_page ++ [spinner; ErrorProcessing UnidentifiedImageError])%list,
   ([] ++ [upload_request (API_KEY []) [x00]])%list).
Proof.
  apply (@main_undecodable Undecodable (answering 200 (response_of []))
           (API_KEY []) (upload_of [x00]) [x00] [] (response_of [])
           ("Normal Kidney (no stones detected)", PList [], false)
           UnidentifiedImageError);
    reflexivity.
Defined.

(** ** From the reply to the page *)

Section EndToEnd.
Context {remote : Transport}.

Lemma draw_calls_log (calls : list rectangle_call) (img : log_image) :
  @draw_calls LogImaging img calls =
  inr {| source := source img; drawn := (drawn img ++ calls)%list |}.
Proof.
  revert img. induction calls as [|c calls IH]; intros img; simpl.
  - rewrite app_nil_r. destruct img; reflexivity.
  - rewrite IH. simpl. rewrite <- app_assoc. reflexivity.
Qed.

(** X24. A reply with a status outside 400-599 whose body is a response of
    the schema with boxes the renderer can handle is shown in full: the
    image carries one rectangle per detection with a complete box, the
    banner is the positive one exactly when some lower-cased label is
    outside the normal-label set, and the raw output is the body. *)
Theorem main_end_to_end (api_key : value) (s : session)
        (image_bytes : list byte) (sent : list request) (resp : response)
        (j : value) (dets : list value) :
  agree s = true ->
  uploaded_file s = Some image_bytes ->
  truthy api_key = true ->
  post (upload_request api_key image_bytes) = inr resp ->
  status_code resp < 400 \/ 600 <= status_code resp ->
  json resp = inr j ->
  first_results j dets ->
  Forall (fun d => wf_detection d = true) dets ->
  Forall (fun d => renderable d = true) dets ->
  @main LogImaging remote api_key s sent =
  ((@upload_page LogImaging ++
    @spinner LogImaging ::
    @analysis_events LogImaging
      {| source := image_bytes; drawn := expected_rectangles dets |}
      (if existsb (fun d => negb (in_normal_labels (lower (det_name d)))) dets
       then "Kidney Stone Detected"
       else "Normal Kidney (no stones detected)")
      (existsb (fun d => negb (in_normal_labels (lower (det_name d)))) dets)
      j)%list,
   (sent ++ [upload_request api_key image_bytes])%list).
Proof.
  intros Hagree Hfile Hkey Hpost Hstatus Hjson Hfirst Hwf Hbox.
  rewrite (main_run api_key s image_bytes sent Hagree Hfile).
  rewrite show_analysis_run, call_ultralytics_api_run, Hkey, Hpost, Hjson.
  replace ((400 <=? status_code resp) && (status_code resp <? 600))
    with false
    by (symmetry; apply andb_false_iff;
        destruct Hstatus; [left; apply Z.leb_gt|right; apply Z.ltb_ge]; lia).
  simpl. unfold analyze.
  rewrite (interpret_results_wf j dets Hfirst)
    by (apply forallb_forall; apply Forall_forall; exact Hwf).
  assert (Hdraw : @draw_bounding_boxes LogImaging image_bytes (PList dets) =
                  inr {| source := image_bytes;
                         drawn := expected_rectangles dets |}).
  { rewrite (@draw_bounding_boxes_list LogImaging). simpl.
    rewrite (@draw_each_renderable LogImaging _ dets Hbox).
    rewrite draw_calls_log. reflexivity. }
  destruct (existsb _ dets); simpl; rewrite Hdraw; reflexivity.
Qed.

End EndToEnd.

Lemma main_end_to_end_witness :
  @main LogImaging
    (answering 200 (response_of [detection "Stone" 10 10 50 50]))
    (API_KEY []) (upload_of [x00]) [] =
  ((@upload_page LogImaging ++
    @spinner LogImaging ::
    @analysis_events LogImaging
      {| source := [x00];
         drawn := expected_rectangles [detection "Stone" 10 10 50 50] |}
      (if existsb (fun d => negb (in_normal_labels (lower (det_name d))))
                  [detection "Stone" 10 10 50 50]
       then "Kidney Stone Detected"
       else "Normal Kidney (no stones detected)")
      (existsb (fun d => negb (in_normal_labels (lower (det_name d))))
               [detection "Stone" 10 10 50 50])
      (response_of [detection "Stone" 10 10 50 50]))%list,
   ([] ++ [upload_request (API_KEY []) [x00]])%list).
Proof.
  apply (@main_end_to_end
           (answering 200 (response_of [detection "Stone" 10 10 50 50]))
           (API_KEY []) (upload_of [x00]) [x00] []
           {| status_code := 200;
              json := inr (response_of [detection "Stone" 10 10 50 50]) |}
           (response_of [detection "Stone" 10 10 50 50])
           [detection "Stone" 10 10 50 50]).
  - reflexivity.
  - reflexivity.
  - reflexivity.
  - reflexivity.
  - left. simpl. lia.
  - reflexivity.
  - eexists _, _, _. repeat split; reflexivity.
  - repeat constructor.
  - repeat constructor.
Defined.

(** Scenario B of the specification, run: one red box at (10,10)-(50,50)
    under the positive banner. *)
Example main_scenario_stone :
  fst (@main LogImaging
         (answering 200 (response_of [detection "Stone" 10 10 50 50]))
         (API_KEY []) (upload_of [x00]) []) =
  (@upload_page LogImaging ++
   [@spinner LogImaging;
    @ShowImage LogImaging
      {| source := [x00];
         drawn := [{| xy := [PInt 10; PInt 10; PInt 50; PInt 50];
                      fill := None; outline := Some "red"; width := 3 |}] |}
      "Analyzed Image";
    ErrorMessage "Kidney Stone Detected";
    Expander "View Raw Model Output" false;
    ShowJson (response_of [detection "Stone" 10 10 50 50])])%list.
Proof. reflexivity. Qed.
